(** * Task Manager API (src/main.py): a shallow embedding and its properties

    The FastAPI application of [src/main.py] exposes a single [tasks] table
    through list / create / partial-update / delete handlers and a
    connectivity probe.  The development follows the source top-down:

    - [PyStr]   Python [str] values (sequences of code points), [str.strip],
                truthiness and slicing;
    - [Sql]     the text operators of the SQL the handlers emit: [lower]
                and [LIKE] patterns;
    - [Schema]  the pydantic request models [TaskCreate], [TaskUpdate] and the
                query parameters of [list_tasks], with their field constraints;
    - [Task], [TaskOut], [App]
                the ORM row, the response model and the handlers, written
                as functions over the table contents.

    The table is a list of rows; every handler takes the table (and the
    current time where the ORM fills a timestamp) and returns the new table
    together with the HTTP response. *)

From Stdlib Require Import ZArith NArith List Bool Lia String Ascii.
From Stdlib Require Import Sorting.Sorted Sorting.Permutation.
Import ListNotations.

(* ------------------------------------------------------------------ *)
(** ** Python strings *)

Module PyStr.

(** A Python [str] is a sequence of Unicode code points; [len] counts
    code points. *)
Definition char := N.
Definition str := list char.

(** ASCII literals of the source. *)
Definition lit (s : string) : str :=
  List.map N_of_ascii (list_ascii_of_string s).
Arguments lit s%_string.

Definition char_eqb (a b : char) : bool := N.eqb a b.

Fixpoint eqb (a b : str) : bool :=
  match a, b with
  | [], [] => true
  | x :: a', y :: b' => char_eqb x y && eqb a' b'
  | _, _ => false
  end.

Definition len (s : str) : Z := Z.of_nat (List.length s).

(** Truthiness of a [str]: the empty string is falsy. *)
Definition truthy (s : str) : bool :=
  match s with [] => false | _ :: _ => true end.

(** [a or b] on strings. *)
Definition or_ (a b : str) : str := if truthy a then a else b.

(** [x or b] where [x : Optional[str]]: [None] and the empty string are
    both falsy. *)
Definition opt_or (x : option str) (b : str) : str :=
  match x with
  | Some a => or_ a b
  | None => b
  end.

Definition in_range (lo hi c : N) : bool := N.leb lo c && N.leb c hi.

(** The characters [str.strip()] removes: CPython's [Py_UNICODE_ISSPACE]
    (TAB..CR, FS..US, SPACE, NEL, NBSP and the Unicode space separators). *)
Definition isspace (c : char) : bool :=
  in_range 9 13 c || in_range 28 32 c
  || N.eqb c 133 || N.eqb c 160 || N.eqb c 5760
  || in_range 8192 8202 c || N.eqb c 8232 || N.eqb c 8233
  || N.eqb c 8239 || N.eqb c 8287 || N.eqb c 12288.

(** [s.lstrip()] *)
Fixpoint lstrip (s : str) : str :=
  match s with
  | [] => []
  | c :: s' => if isspace c then lstrip s' else s
  end.

(** [s.rstrip()]: drop the trailing run of whitespace. *)
Fixpoint rstrip (s : str) : str :=
  match s with
  | [] => []
  | c :: s' =>
      match rstrip s' with
      | [] => if isspace c then [] else [c]
      | r => c :: r
      end
  end.

(** [s.strip()] *)
Definition strip (s : str) : str := rstrip (lstrip s).

(** [s[:n]] for [n >= 0]. *)
Definition slice_to (n : nat) (s : str) : str := firstn n s.

(** [c * n]: [n] copies of the one-character string [c]. *)
Definition replicate (n : nat) (c : char) : str := List.repeat c n.

End PyStr.

Import PyStr.

(* ------------------------------------------------------------------ *)
(** ** The SQL fragment emitted by the handlers

    The model follows the embedded default backend of the source
    ([sqlite:///./tasks.db]): [lower] and [LIKE] fold the 26 ASCII letters
    only, [LIKE] has no escape character and reads its two operands as
    NUL-terminated strings, and [=] on text is exact.  The backend refuses
    a [LIKE] pattern of more than 50 000 bytes; the statements about the
    search text carry [pattern_fits] for that reason. *)

Module Sql.

Definition percent : char := 37%N.     (* % : any run of characters *)
Definition underscore : char := 95%N.  (* _ : any single character *)

(** [lower(c)] *)
Definition lower_char (c : char) : char :=
  if in_range 65 90 c then (c + 32)%N else c.

Definition lower (s : str) : str := List.map lower_char s.

(** [s LIKE pat], case-sensitively. *)
Fixpoint like (pat s : str) : bool :=
  match pat with
  | [] => match s with [] => true | _ :: _ => false end
  | c :: p =>
      if char_eqb c percent then
        (fix some_suffix (s : str) : bool :=
           like p s ||
           match s with
           | [] => false
           | _ :: s' => some_suffix s'
           end) s
      else
        match s with
        | [] => false
        | d :: s' => (char_eqb c underscore || char_eqb c d) && like p s'
        end
  end.

Definition nul : char := 0%N.

(** A text value read as a NUL-terminated string: its characters before
    the first NUL. *)
Fixpoint c_string (s : str) : str :=
  match s with
  | [] => []
  | c :: s' => if char_eqb c nul then [] else c :: c_string s'
  end.

(** [s LIKE pat] as the backend evaluates it: the matcher runs on the two
    operands read as NUL-terminated strings. *)
Definition sqlite_like (pat s : str) : bool :=
  like (c_string pat) (c_string s).

(** [col.ilike(pat)], rendered as [lower(col) LIKE lower(pat)]. *)
Definition ilike (col pat : str) : bool :=
  sqlite_like (lower pat) (lower col).

(** The reading of the specification: plain substring search. *)
Fixpoint prefixb (p s : str) : bool :=
  match p, s with
  | [], _ => true
  | _ :: _, [] => false
  | c :: p', d :: s' => char_eqb c d && prefixb p' s'
  end.

Fixpoint substringb (p s : str) : bool :=
  prefixb p s ||
  match s with
  | [] => false
  | _ :: s' => substringb p s'
  end.

(** [q] is, ignoring ASCII case, a substring of [s]. *)
Definition contains_ci (q s : str) : bool :=
  substringb (lower q) (lower s).



(** [q] contains no NUL character. *)
Definition nul_free (q : str) : bool :=
  forallb (fun c => negb (char_eqb c nul)) q.

(** The number of bytes of a code point, and of a text, in UTF-8. *)
Definition utf8_size (c : char) : Z :=
  if N.ltb c 128 then 1
  else if N.ltb c 2048 then 2
  else if N.ltb c 65536 then 3
  else 4.

Definition utf8_length (s : str) : Z :=
  List.fold_right (fun c n => (utf8_size c + n)%Z) 0%Z s.

(** The pattern [%q%] stays within the 50 000 bytes the backend accepts
    for a [LIKE] pattern. *)
Definition pattern_fits (q : str) : bool :=
  Z.leb (2 + utf8_length q) 50000.

End Sql.

(* ------------------------------------------------------------------ *)
(** ** HTTP responses *)

Inductive response (A : Type) : Type :=
| Ok (status_code : nat) (body : A)
    (** the handler returned; the decorator fixes the status code *)
| RequestValidationError
    (** raised by request validation before the handler runs: 422 *)
| HTTPException (status_code : nat) (detail : str)
    (** raised by the handler *)
| Unhandled (exc : str)
    (** another exception left the handler: 500 Internal Server Error *).

Arguments Ok {A} status_code body.
Arguments RequestValidationError {A}.
Arguments HTTPException {A} status_code detail.
Arguments Unhandled {A} exc.


(* ------------------------------------------------------------------ *)
(** ** Request models (pydantic schemas and query parameters)

    A request body is modelled after JSON decoding, with every key carrying a
    value of its declared JSON type: a key is absent, carries [null], or
    carries a value. *)

Module Schema.

Inductive field (A : Type) : Type :=
| Absent
| Null
| Val (a : A).
Arguments Absent {A}.
Arguments Null {A}.
Arguments Val {A} a.

(** [datetime.date] as a day ordinal, [datetime.datetime] as a count of
    microseconds. *)
Definition date := Z.
Definition datetime := Z.

(** [x: T = Field(..., <constraint>)]: the key is required and [null] is
    not a [T]. *)
Definition required {A : Type} (ok : A -> bool) (f : field A) : option A :=
  match f with
  | Val a => if ok a then Some a else None
  | Absent | Null => None
  end.

(** [x: Optional[T] = Field(default, <constraint>)]: the default is taken
    when the key is absent, [null] validates to [None], and the constraint
    is checked on supplied values only. *)
Definition optional {A : Type} (default : option A) (ok : A -> bool)
           (f : field A) : option (option A) :=
  match f with
  | Absent => Some default
  | Null => Some None
  | Val a => if ok a then Some (Some a) else None
  end.

(** [min_length=lo, max_length=hi] *)
Definition length_within (lo hi : Z) (s : str) : bool :=
  Z.leb lo (len s) && Z.leb (len s) hi.

(** [pattern=r"^(low|medium|high)$"]; the anchors bind to the ends of the
    whole text. *)
Definition priority_pattern (s : str) : bool :=
  eqb s (lit "low") || eqb s (lit "medium") || eqb s (lit "high").

(** [pattern=r"^(open|in_progress|done)$"] *)
Definition status_pattern (s : str) : bool :=
  eqb s (lit "open") || eqb s (lit "in_progress") || eqb s (lit "done").

Definition unconstrained {A : Type} (_ : A) : bool := true.

(** [class TaskCreate(BaseModel)] *)
Module TaskCreate.

Record body : Type := Body {
  b_title : field str;
  b_description : field str;
  b_priority : field str;
  b_dueDate : field date
}.

Record t : Type := Make {
  title : str;
  description : option str;
  priority : option str;
  dueDate : option date
}.

Definition validate (b : body) : option t :=
  match required (length_within 1 255) (b_title b) with
  | None => None
  | Some ti =>
  match optional (Some (lit "")) unconstrained (b_description b) with
  | None => None
  | Some de =>
  match optional (Some (lit "medium")) priority_pattern (b_priority b) with
  | None => None
  | Some pr =>
  match optional None unconstrained (b_dueDate b) with
  | None => None
  | Some du => Some (Make ti de pr du)
  end end end end.

End TaskCreate.

(** [class TaskUpdate(BaseModel)] *)
Module TaskUpdate.

Record body : Type := Body {
  b_title : field str;
  b_description : field str;
  b_priority : field str;
  b_status : field str;
  b_dueDate : field date;
  b_completed : field bool
}.

Record t : Type := Make {
  title : option str;
  description : option str;
  priority : option str;
  status : option str;
  dueDate : option date;
  completed : option bool
}.

Definition validate (b : body) : option t :=
  match optional None (length_within 1 255) (b_title b) with
  | None => None
  | Some ti =>
  match optional None unconstrained (b_description b) with
  | None => None
  | Some de =>
  match optional None priority_pattern (b_priority b) with
  | None => None
  | Some pr =>
  match optional None status_pattern (b_status b) with
  | None => None
  | Some st =>
  match optional None unconstrained (b_dueDate b) with
  | None => None
  | Some du =>
  match optional None unconstrained (b_completed b) with
  | None => None
  | Some co => Some (Make ti de pr st du co)
  end end end end end end.

End TaskUpdate.

(** The query parameters of [list_tasks]; a query parameter is present or
    not, there is no [null]. *)
Module ListQuery.

Record raw : Type := Raw {
  r_q : option str;
  r_status : option str;
  r_priority : option str;
  r_show_completed : option bool;
  r_limit : option Z
}.

Record t : Type := Make {
  q : option str;
  status : option str;
  priority : option str;
  show_completed : bool;
  limit : Z
}.

(** [Query(None, pattern=...)] *)
Definition optional_param {A : Type} (ok : A -> bool) (p : option A)
  : option (option A) :=
  match p with
  | None => Some None
  | Some a => if ok a then Some (Some a) else None
  end.

(** [Query(default, <constraint>)] on a non-optional type. *)
Definition defaulted_param {A : Type} (default : A) (ok : A -> bool)
           (p : option A) : option A :=
  match p with
  | None => Some default
  | Some a => if ok a then Some a else None
  end.

(** [ge=1, le=1000] *)
Definition limit_bounds (n : Z) : bool := Z.leb 1 n && Z.leb n 1000.

Definition validate (r : raw) : option t :=
  match optional_param unconstrained (r_q r) with
  | None => None
  | Some q =>
  match optional_param status_pattern (r_status r) with
  | None => None
  | Some st =>
  match optional_param priority_pattern (r_priority r) with
  | None => None
  | Some pr =>
  match defaulted_param true unconstrained (r_show_completed r) with
  | None => None
  | Some sc =>
  match defaulted_param 200%Z limit_bounds (r_limit r) with
  | None => None
  | Some li => Some (Make q st pr sc li)
  end end end end end.

End ListQuery.

End Schema.

Import Schema.

(* ------------------------------------------------------------------ *)
(** ** The table, the response model and the handlers *)

(** [class Task(Base)]: one row of the [tasks] table. *)
Module Task.

Record t : Type := Make {
  id : Z;
  title : str;
  description : str;
  priority : str;
  status : str;
  due_date : option date;
  completed : bool;
  created_at : datetime;
  updated_at : datetime
}.

(** Attribute assignment [t.<col> = v]. *)
Definition set_title (v : str) (r : t) : t :=
  Make (id r) v (description r) (priority r) (status r) (due_date r)
       (completed r) (created_at r) (updated_at r).
Definition set_description (v : str) (r : t) : t :=
  Make (id r) (title r) v (priority r) (status r) (due_date r)
       (completed r) (created_at r) (updated_at r).
Definition set_priority (v : str) (r : t) : t :=
  Make (id r) (title r) (description r) v (status r) (due_date r)
       (completed r) (created_at r) (updated_at r).
Definition set_status (v : str) (r : t) : t :=
  Make (id r) (title r) (description r) (priority r) v (due_date r)
       (completed r) (created_at r) (updated_at r).
Definition set_due_date (v : option date) (r : t) : t :=
  Make (id r) (title r) (description r) (priority r) (status r) v
       (completed r) (created_at r) (updated_at r).
Definition set_completed (v : bool) (r : t) : t :=
  Make (id r) (title r) (description r) (priority r) (status r) (due_date r)
       v (created_at r) (updated_at r).
Definition set_updated_at (v : datetime) (r : t) : t :=
  Make (id r) (title r) (description r) (priority r) (status r) (due_date r)
       (completed r) (created_at r) v.

Definition opt_date_eqb (a b : option date) : bool :=
  match a, b with
  | None, None => true
  | Some x, Some y => Z.eqb x y
  | _, _ => false
  end.

(** Column-wise comparison, as the unit of work does when it decides
    whether a row is dirty. *)
Definition same_columns (a b : t) : bool :=
  Z.eqb (id a) (id b) && eqb (title a) (title b)
  && eqb (description a) (description b) && eqb (priority a) (priority b)
  && eqb (status a) (status b) && opt_date_eqb (due_date a) (due_date b)
  && Bool.eqb (completed a) (completed b)
  && Z.eqb (created_at a) (created_at b)
  && Z.eqb (updated_at a) (updated_at b).

End Task.

(** [class TaskOut(BaseModel)] *)
Module TaskOut.

Record t : Type := Make {
  id : Z;
  title : str;
  description : str;
  priority : str;
  status : str;
  dueDate : option date;
  completed : bool;
  createdAt : datetime
}.

(** [TaskOut.from_orm_task] *)
Definition from_orm_task (r : Task.t) : t :=
  Make (Task.id r)
       (Task.title r)
       (or_ (Task.description r) (lit ""))
       (Task.priority r)
       (Task.status r)
       (Task.due_date r)
       (Task.completed r)
       (Task.created_at r).

End TaskOut.

Module App.

(** The contents of the [tasks] table, in insertion order. *)
Definition table := list Task.t.

Definition has_id (task_id : Z) (r : Task.t) : bool :=
  Z.eqb (Task.id r) task_id.

(** [db.query(Task).filter(Task.id == task_id).first()] *)
Definition first_by_id (task_id : Z) (db : table) : option Task.t :=
  List.find (has_id task_id) db.

(** The integer primary key handed out by the default backend: 1 for an
    empty table, otherwise one more than the largest key in the table.
    (When the largest key is the last 64-bit integer the backend draws an
    unused key instead; the model does not follow it there.) *)
Definition next_id (db : table) : Z :=
  match List.map Task.id db with
  | [] => 1
  | i :: ids => 1 + List.fold_right Z.max i ids
  end.

(** [UPDATE tasks SET ... WHERE id = <id of r>] *)
Definition write_row (r : Task.t) (db : table) : table :=
  List.map (fun r0 => if has_id (Task.id r) r0 then r else r0) db.

(** [DELETE FROM tasks WHERE id = <id of r>] *)
Definition delete_row (r : Task.t) (db : table) : table :=
  List.filter (fun r0 => negb (has_id (Task.id r) r0)) db.

(** [ORDER BY created_at DESC]; rows with equal timestamps keep their
    table order. *)
Fixpoint insert_desc (r : Task.t) (l : list Task.t) : list Task.t :=
  match l with
  | [] => [r]
  | r0 :: l' =>
      if Z.leb (Task.created_at r0) (Task.created_at r)
      then r :: l
      else r0 :: insert_desc r l'
  end.

Definition order_by_created_at_desc (l : list Task.t) : list Task.t :=
  List.fold_right insert_desc [] l.

(** The [WHERE] clause built by [list_tasks], one conjunct per
    [query.filter(...)] call that the handler reaches. *)
Definition where_q (q : option str) (r : Task.t) : bool :=
  match q with
  | Some s =>
      if truthy s then
        let like := [Sql.percent] ++ s ++ [Sql.percent] in
        Sql.ilike (Task.title r) like || Sql.ilike (Task.description r) like
      else true
  | None => true
  end.

Definition where_status (status : option str) (r : Task.t) : bool :=
  match status with
  | Some s => if truthy s then eqb (Task.status r) s else true
  | None => true
  end.

Definition where_priority (priority : option str) (r : Task.t) : bool :=
  match priority with
  | Some s => if truthy s then eqb (Task.priority r) s else true
  | None => true
  end.

Definition where_completed (show_completed : bool) (r : Task.t) : bool :=
  if negb show_completed then Bool.eqb (Task.completed r) false else true.

(** [def list_tasks(q, status, priority, show_completed, limit, db)] *)
Definition list_tasks (q status priority : option str)
           (show_completed : bool) (limit : Z) (db : table)
  : response (list TaskOut.t) :=
  let query := db in
  let query := List.filter (where_q q) query in
  let query := List.filter (where_status status) query in
  let query := List.filter (where_priority priority) query in
  let query := List.filter (where_completed show_completed) query in
  let query := List.firstn (Z.to_nat limit) (order_by_created_at_desc query) in
  let tasks := query in
  Ok 200 (List.map TaskOut.from_orm_task tasks).

(** [GET /tasks]: parameter validation, then the handler. *)
Definition get_tasks (r : ListQuery.raw) (db : table)
  : response (list TaskOut.t) :=
  match ListQuery.validate r with
  | None => RequestValidationError
  | Some p =>
      list_tasks (ListQuery.q p) (ListQuery.status p) (ListQuery.priority p)
                 (ListQuery.show_completed p) (ListQuery.limit p) db
  end.

(** [def create_task(payload, db)]; [now] is the value of
    [datetime.utcnow] that the default of [created_at] picks up at the
    insert.  The default of [updated_at] is a call of its own, a moment
    later; the model reads it as the same instant. *)
Definition create_task (payload : TaskCreate.t) (now : datetime) (db : table)
  : table * response TaskOut.t :=
  let t :=
    Task.Make (next_id db)
              (strip (TaskCreate.title payload))
              (strip (opt_or (TaskCreate.description payload) (lit "")))
              (opt_or (TaskCreate.priority payload) (lit "medium"))
              (lit "open")
              (TaskCreate.dueDate payload)
              false
              now
              now in
  let db := db ++ [t] in
  (db, Ok 201 (TaskOut.from_orm_task t)).

(** [POST /tasks] *)
Definition post_tasks (b : TaskCreate.body) (now : datetime) (db : table)
  : table * response TaskOut.t :=
  match TaskCreate.validate b with
  | None => (db, RequestValidationError)
  | Some payload => create_task payload now db
  end.

(** The assignments of [update_task] between the lookup and the commit. *)
Definition apply_update (payload : TaskUpdate.t) (t : Task.t) : Task.t :=
  let t :=
    match TaskUpdate.title payload with
    | Some title => Task.set_title (or_ (strip title) (Task.title t)) t
    | None => t
    end in
  let t :=
    match TaskUpdate.description payload with
    | Some description => Task.set_description description t
    | None => t
    end in
  let t :=
    match TaskUpdate.priority payload with
    | Some priority => Task.set_priority priority t
    | None => t
    end in
  let t :=
    match TaskUpdate.status payload with
    | Some status => Task.set_status status t
    | None => t
    end in
  let t :=
    match TaskUpdate.dueDate payload with
    | Some dueDate => Task.set_due_date (Some dueDate) t
    | None => t
    end in
  match TaskUpdate.completed payload with
  | Some completed =>
      let t := Task.set_completed completed t in
      (* auto-update status if completed toggled *)
      let t :=
        if Task.completed t && negb (eqb (Task.status t) (lit "done"))
        then Task.set_status (lit "done") t else t in
      let t :=
        if negb (Task.completed t) && eqb (Task.status t) (lit "done")
        then Task.set_status (lit "open") t else t in
      t
  | None => t
  end.

(** [db.commit()] after attribute assignments: a row whose columns all
    kept their values is not written; a dirty row is written with
    [updated_at] taken from [onupdate=datetime.utcnow]. *)
Definition flush (now : datetime) (old new : Task.t) : Task.t :=
  if Task.same_columns old new then new else Task.set_updated_at now new.

(** [def update_task(task_id, payload, db)], for a [task_id] that the
    driver can bind; [delete_task] below shows the lookup of one it
    cannot. *)
Definition update_task (task_id : Z) (payload : TaskUpdate.t)
           (now : datetime) (db : table) : table * response TaskOut.t :=
  match first_by_id task_id db with
  | None => (db, HTTPException 404 (lit "Task not found"))
  | Some t0 =>
      let t := flush now t0 (apply_update payload t0) in
      (write_row t db, Ok 200 (TaskOut.from_orm_task t))
  end.

(** [PATCH /tasks/{task_id}] *)
Definition patch_tasks (task_id : Z) (b : TaskUpdate.body) (now : datetime)
           (db : table) : table * response TaskOut.t :=
  match TaskUpdate.validate b with
  | None => (db, RequestValidationError)
  | Some payload => update_task task_id payload now db
  end.

(** The integers the backend stores and binds: signed, 64 bits. *)
Definition fits_int64 (n : Z) : bool :=
  Z.leb (- 2 ^ 63) n && Z.leb n (2 ^ 63 - 1).

(** [def delete_task(task_id, db)].  The path parameter is a Python [int]
    of any size; the driver refuses to bind one that does not fit the key
    column, and the [OverflowError] leaves the handler. *)
Definition delete_task (task_id : Z) (db : table) : table * response unit :=
  if fits_int64 task_id then
    match first_by_id task_id db with
    | None => (db, HTTPException 404 (lit "Task not found"))
    | Some t => (delete_row t db, Ok 204 tt)
    end
  else
    (db, Unhandled
           (lit "OverflowError: Python int too large to convert to SQLite INTEGER")).

(** What [engine.connect()] does when [test_database] calls it: it hands
    out a connection, or an [Exception] [e] is raised ([message] is
    [str(e)]). *)
Inductive probe_outcome : Type :=
| Completed
| Raised (message : str).

(** A statement sequence that returns a value or raises an instance of
    [Exception], kept by its [str()]. *)
Inductive result (A : Type) : Type :=
| Return (a : A)
| Raise (e : str).
Arguments Return {A} a.
Arguments Raise {A} e.

Definition bind {A B : Type} (m : result A) (k : A -> result B) : result B :=
  match m with
  | Return a => k a
  | Raise e => Raise e
  end.

(** [try: body / except Exception as e: handler(e)] *)
Definition try_except {A : Type} (body : result A) (handler : str -> result A)
  : result A :=
  match body with
  | Return a => Return a
  | Raise e => handler e
  end.

(** The response to a handler that returns, or that lets an exception
    out. *)
Definition respond {A : Type} (status_code : nat) (m : result A)
  : response A :=
  match m with
  | Return a => Ok status_code a
  | Raise e => Unhandled e
  end.

(** [engine.connect()] *)
Definition engine_connect (probe : probe_outcome) : result unit :=
  match probe with
  | Completed => Return tt
  | Raised e => Raise e
  end.

(** [repr(s)] for a [str] without quotes, backslashes or control
    characters. *)
Definition repr (s : str) : str := lit "'" ++ s ++ lit "'".

(** [conn.execute(statement)] with a plain [str] on a connection of an
    engine created with [future=True]: a [str] is not an executable
    object, the call raises [ObjectNotExecutableError] and nothing is sent
    to the database. *)
Definition execute_str (statement : str) : result unit :=
  Raise (lit "Not an executable object: " ++ repr statement).

(** A [dict] with [str] keys and values, in insertion order. *)
Definition dict := list (str * str).

Fixpoint dict_set (k v : str) (d : dict) : dict :=
  match d with
  | [] => [(k, v)]
  | (k0, v0) :: d' =>
      if eqb k0 k then (k0, v) :: d' else (k0, v0) :: dict_set k v d'
  end.

Fixpoint dict_get (k : str) (d : dict) : option str :=
  match d with
  | [] => None
  | (k0, v0) :: d' => if eqb k0 k then Some v0 else dict_get k d'
  end.

(** [def test_database()]; the module-level [DATABASE_URL] and
    [engine.dialect.name] are arguments. *)
Definition test_database (DATABASE_URL dialect_name : str)
           (probe : probe_outcome) : response dict :=
  let info :=
    [ (lit "backend", lit "running");
      (lit "database_url", DATABASE_URL);
      (lit "driver", dialect_name) ] in
  respond 200
    (try_except
       (bind (engine_connect probe) (fun conn =>
        bind (execute_str (lit "SELECT 1")) (fun _ =>
        Return (dict_set (lit "database") (lit "connected") info))))
       (fun e =>
          Return (dict_set (lit "database")
                           (lit "error: " ++ slice_to 120 e) info))).

End App.

Import App.

(* ------------------------------------------------------------------ *)
(** ** Vocabulary of the specification

    Definitions that follow the wording of the specification rather than the
    source; the theorems below compare the handlers with them. *)

Module Spec.

(** A key counts as supplied when it carries a value; for the optional
    keys of [TaskUpdate] an explicit [null] validates to [None]. *)
Definition supplied {A : Type} (f : field A) : bool :=
  match f with
  | Val _ => true
  | Absent | Null => false
  end.

Definition value_of {A : Type} (f : field A) : option A :=
  match f with
  | Val a => Some a
  | Absent | Null => None
  end.

Definition priorities : list str := [lit "low"; lit "medium"; lit "high"].
Definition statuses : list str := [lit "open"; lit "in_progress"; lit "done"].

(** The status of the task at the point where [completed] is examined:
    the explicit status of the request if there is one, the stored one
    otherwise. *)
Definition status_at_toggle (b : TaskUpdate.body) (t0 : Task.t) : str :=
  match TaskUpdate.b_status b with
  | Val s => s
  | Absent | Null => Task.status t0
  end.

(** The same request with another [dueDate] key. *)
Definition with_dueDate (f : field date) (b : TaskUpdate.body)
  : TaskUpdate.body :=
  TaskUpdate.Body (TaskUpdate.b_title b) (TaskUpdate.b_description b)
                  (TaskUpdate.b_priority b) (TaskUpdate.b_status b)
                  f (TaskUpdate.b_completed b).


(** The limit in force for a list request. *)
Definition limit_in_force (r : ListQuery.raw) : Z :=
  match ListQuery.r_limit r with
  | Some n => n
  | None => 200%Z
  end.

(** Most recently created first, on responses and on rows. *)
Definition newer_first (a b : TaskOut.t) : Prop :=
  (TaskOut.createdAt b <= TaskOut.createdAt a)%Z.

Definition row_newer_first (a b : Task.t) : Prop :=
  (Task.created_at b <= Task.created_at a)%Z.

End Spec.

(* ------------------------------------------------------------------ *)
(** ** Sample data *)

Module Sample.

Definition t0 : datetime := 1700000000000000%Z.

(** A task in progress, due on some day. *)
Definition row1 : Task.t :=
  Task.Make 1 (lit "Buy milk") (lit "two litres") (lit "medium")
            (lit "in_progress") (Some 738000%Z) false t0 t0.

(** A finished task. *)
Definition row2 : Task.t :=
  Task.Make 2 (lit "abc") (lit "") (lit "high") (lit "done") None true
            (t0 + 5)%Z (t0 + 5)%Z.

Definition db : table := [row1; row2].

Definition no_update : TaskUpdate.body :=
  TaskUpdate.Body Absent Absent Absent Absent Absent Absent.

Definition no_query : ListQuery.raw :=
  ListQuery.Raw None None None None None.

Definition t1 : datetime := (t0 + 9)%Z.

(** [{"title": " Buy milk ", "priority": "high"}] and the row it makes
    in the empty table at [t0]. *)
Definition buy_milk : TaskCreate.body :=
  TaskCreate.Body (Val (lit " Buy milk ")) Absent (Val (lit "high")) Absent.
Definition buy_milk_row : Task.t :=
  Task.Make 1 (lit "Buy milk") (lit "") (lit "high") (lit "open") None
            false t0 t0.

(** One space followed by 255 letters: 256 characters, 255 once
    trimmed. *)
Definition long_padded : str := lit " " ++ replicate 255 97%N.
Definition long_padded_create : TaskCreate.body :=
  TaskCreate.Body (Val long_padded) Absent (Val (lit "high")) Absent.

(** [{"title": "ok", "priority": "urgent"}] and [{"title": "   "}] *)
Definition urgent : TaskCreate.body :=
  TaskCreate.Body (Val (lit "ok")) Absent (Val (lit "urgent")) Absent.
Definition blank_create : TaskCreate.body :=
  TaskCreate.Body (Val (lit "   ")) Absent Absent Absent.

Definition limit_one : ListQuery.raw :=
  ListQuery.Raw None None None None (Some 1%Z).
Definition limit_zero : ListQuery.raw :=
  ListQuery.Raw None None None None (Some 0%Z).

(** [{"status": "open", "completed": true}] *)
Definition reopen_and_complete : TaskUpdate.body :=
  TaskUpdate.Body Absent Absent Absent (Val (lit "open")) Absent (Val true).

(** [row1] once completed at [t1]. *)
Definition row1_done : Task.t :=
  Task.Make 1 (lit "Buy milk") (lit "two litres") (lit "medium")
            (lit "done") (Some 738000%Z) true t0 t1.

(** [{"completed": false}] *)
Definition uncomplete : TaskUpdate.body :=
  TaskUpdate.Body Absent Absent Absent Absent Absent (Val false).

(** [{"title": ""}], [{"title": "   "}] and [{"title": " Call mum "}] *)
Definition empty_title : TaskUpdate.body :=
  TaskUpdate.Body (Val (lit "")) Absent Absent Absent Absent Absent.
Definition blank_title : TaskUpdate.body :=
  TaskUpdate.Body (Val (lit "   ")) Absent Absent Absent Absent Absent.
Definition padded_title : TaskUpdate.body :=
  TaskUpdate.Body (Val (lit " Call mum ")) Absent Absent Absent Absent
                  Absent.

Definition blank_payload : TaskUpdate.t :=
  TaskUpdate.Make (Some (lit "   ")) None None None None None.
Definition padded_payload : TaskUpdate.t :=
  TaskUpdate.Make (Some (lit " Call mum ")) None None None None None.

(** [{"completed": true}] and [{"status": "done"}] *)
Definition complete : TaskUpdate.body :=
  TaskUpdate.Body Absent Absent Absent Absent Absent (Val true).
Definition set_done : TaskUpdate.body :=
  TaskUpdate.Body Absent Absent Absent (Val (lit "done")) Absent Absent.

(** [row1] once its status alone was set to done at [t1]. *)
Definition row1_status_done : Task.t :=
  Task.Make 1 (lit "Buy milk") (lit "two litres") (lit "medium")
            (lit "done") (Some 738000%Z) false t0 t1.

(** [{"dueDate": null}] *)
Definition null_due_date : TaskUpdate.body :=
  TaskUpdate.Body Absent Absent Absent Absent Null Absent.

(** [row2] once reopened at [t1]. *)
Definition row2_open : Task.t :=
  Task.Make 2 (lit "abc") (lit "") (lit "high") (lit "open") None false
            (t0 + 5)%Z t1.

End Sample.

(* ------------------------------------------------------------------ *)
(** ** Module-level configuration and the liveness banner *)

Module Config.

Definition colon : char := 58%N.

(** [s.startswith(p)] *)
Fixpoint startswith (s p : str) {struct p} : bool :=
  match p, s with
  | [], _ => true
  | _ :: _, [] => false
  | c :: p', d :: s' => char_eqb c d && startswith s' p'
  end.

(** [s.replace(old, new, 1)]: the leftmost occurrence of [old], if there
    is one, is replaced by [new]. *)
Fixpoint replace_first (old new s : str) : str :=
  if startswith s old then new ++ skipn (List.length old) s
  else
    match s with
    | [] => []
    | c :: s' => c :: replace_first old new s'
    end.

(** [s.split(sep)] for a separator of one character; the result is never
    empty. *)
Fixpoint split (sep : char) (s : str) : list str :=
  match s with
  | [] => [[]]
  | c :: s' =>
      if char_eqb c sep then [] :: split sep s'
      else
        match split sep s' with
        | [] => [[c]]
        | w :: ws => (c :: w) :: ws
        end
  end.

(** [a or b] where both sides are [Optional[str]], as [os.getenv]
    returns them. *)
Definition opt_or_opt (a b : option str) : option str :=
  match a with
  | Some s => if truthy s then a else b
  | None => b
  end.

(** [os.getenv("DATABASE_URL") or os.getenv("MYSQL_URL") or
    "sqlite:///./tasks.db"]; the two arguments are the values of the
    environment variables. *)
Definition configured_url (env_DATABASE_URL env_MYSQL_URL : option str)
  : str :=
  opt_or (opt_or_opt env_DATABASE_URL env_MYSQL_URL)
         (lit "sqlite:///./tasks.db").

(** [DATABASE_URL] once the module is loaded: a [mysql://] URL is pointed
    at the pymysql driver. *)
Definition DATABASE_URL (env_DATABASE_URL env_MYSQL_URL : option str)
  : str :=
  let DATABASE_URL := configured_url env_DATABASE_URL env_MYSQL_URL in
  if startswith DATABASE_URL (lit "mysql://")
  then replace_first (lit "mysql://") (lit "mysql+pymysql://") DATABASE_URL
  else DATABASE_URL.

(** [def read_root()]; the module-level [DATABASE_URL] is an argument. *)
Definition read_root (DATABASE_URL : str) : response dict :=
  Ok 200
     [ (lit "message", lit "Task Manager API running");
       (lit "db", List.hd [] (split colon DATABASE_URL)) ].

End Config.

(* ------------------------------------------------------------------ *)
(** ** Properties of rows and tables kept by the handlers *)

Module Inv.

(** The primary key: no two rows share an id. *)
Definition unique_ids (db : table) : Prop :=
  NoDup (List.map Task.id db).

(** Status and priority are values of their enumerations. *)
Definition in_enums (r : Task.t) : Prop :=
  In (Task.status r) Spec.statuses /\ In (Task.priority r) Spec.priorities.

(** The title carries no surrounding whitespace and fits [String(255)]. *)
Definition title_stored (r : Task.t) : Prop :=
  strip (Task.title r) = Task.title r /\ (len (Task.title r) <= 255)%Z.

(** The request was refused: validation error, [HTTPException] or an
    exception that left the handler. *)
Definition is_error {A : Type} (r : response A) : bool :=
  match r with
  | Ok _ _ => false
  | RequestValidationError | HTTPException _ _ | Unhandled _ => true
  end.

(** The rows the [WHERE] clause of [list_tasks] keeps, for validated
    parameters. *)
Definition selected (p : ListQuery.t) (db : table) : list Task.t :=
  List.filter
    (fun r => where_q (ListQuery.q p) r
              && (where_status (ListQuery.status p) r
              && (where_priority (ListQuery.priority p) r
              && where_completed (ListQuery.show_completed p) r)))
    db.

(** A body in which every key that carries [null] is left out. *)
Definition drop_null {A : Type} (f : field A) : field A :=
  match f with
  | Null => Absent
  | Absent | Val _ => f
  end.

Definition create_without_nulls (b : TaskCreate.body) : TaskCreate.body :=
  TaskCreate.Body (drop_null (TaskCreate.b_title b))
                  (drop_null (TaskCreate.b_description b))
                  (drop_null (TaskCreate.b_priority b))
                  (drop_null (TaskCreate.b_dueDate b)).

Definition update_without_nulls (b : TaskUpdate.body) : TaskUpdate.body :=
  TaskUpdate.Body (drop_null (TaskUpdate.b_title b))
                  (drop_null (TaskUpdate.b_description b))
                  (drop_null (TaskUpdate.b_priority b))
                  (drop_null (TaskUpdate.b_status b))
                  (drop_null (TaskUpdate.b_dueDate b))
                  (drop_null (TaskUpdate.b_completed b)).

(** No key of the body carries a value. *)
Definition nothing_supplied (b : TaskUpdate.body) : Prop :=
  Spec.supplied (TaskUpdate.b_title b) = false
  /\ Spec.supplied (TaskUpdate.b_description b) = false
  /\ Spec.supplied (TaskUpdate.b_priority b) = false
  /\ Spec.supplied (TaskUpdate.b_status b) = false
  /\ Spec.supplied (TaskUpdate.b_dueDate b) = false
  /\ Spec.supplied (TaskUpdate.b_completed b) = false.

(** A list request with no search text, status or priority, and without
    completed-exclusion. *)
Definition no_criteria (r : ListQuery.raw) : Prop :=
  ListQuery.r_q r = None /\ ListQuery.r_status r = None
  /\ ListQuery.r_priority r = None
  /\ ListQuery.r_show_completed r <> Some false.

End Inv.

(** Inputs used to instantiate the statements on the configuration and on
    the table invariants. *)
Module Scenario.

Definition mysql_env : option str := Some (lit "mysql://user:pw@db:3306/tasks").

(** A row whose status and priority are outside the enumerations and whose
    title is padded, as a direct write to the table could leave it. *)
Definition stray_row : Task.t :=
  Task.Make 7 (lit " x ") (lit "") (lit "urgent") (lit "archived") None
            false Sample.t0 Sample.t0.

(** [{"title": "Call mum", "status": "done", "priority": "low"}] *)
Definition retitle : TaskUpdate.body :=
  TaskUpdate.Body (Val (lit "Call mum")) Absent (Val (lit "low"))
                  (Val (lit "done")) Absent Absent.

(** [{"title": null, "priority": null, "completed": null}] *)
Definition all_null : TaskUpdate.body :=
  TaskUpdate.Body Null Absent Null Absent Absent Null.

(** [?status=done&show_completed=false] and [?status=done] *)
Definition done_not_completed : ListQuery.raw :=
  ListQuery.Raw None (Some (lit "done")) None (Some false) None.
Definition only_done : ListQuery.raw :=
  ListQuery.Raw None (Some (lit "done")) None None None.

End Scenario.

(* ------------------------------------------------------------------ *)
(** ** Facts about strings *)

Section StrFacts.

Lemma char_eqb_eq (a b : char) : char_eqb a b = true <-> a = b.
Proof. unfold char_eqb. apply N.eqb_eq. Qed.

Lemma eqb_eq (a b : str) : eqb a b = true <-> a = b.
Proof.
  revert b. induction a as [|x a IH]; intros [|y b]; simpl;
    try (split; [discriminate | discriminate]); try tauto.
  rewrite andb_true_iff, char_eqb_eq, IH.
  split; [intros [-> ->]; reflexivity | intros E; inversion E; auto].
Qed.

Lemma eqb_refl (a : str) : eqb a a = true.
Proof. apply eqb_eq. reflexivity. Qed.

Lemma eqb_neq (a b : str) : eqb a b = false <-> a <> b.
Proof.
  split.
  - intros H E. apply eqb_eq in E. congruence.
  - intros H. destruct (eqb a b) eqn:E; [apply eqb_eq in E; contradiction | reflexivity].
Qed.

Lemma or_empty (s : str) : or_ s (lit "") = s.
Proof. destruct s; reflexivity. Qed.

Lemma or_cases (a b : str) :
  or_ a b = match a with [] => b | _ :: _ => a end.
Proof. destruct a; reflexivity. Qed.

Lemma truthy_nonempty (s : str) : truthy s = true <-> s <> [].
Proof. destruct s; simpl; split; congruence. Qed.

End StrFacts.

(* ------------------------------------------------------------------ *)
(** ** [LIKE] against substring search *)

Section LikeFacts.

Import Sql.

(** One unfolding of [like] at a leading [%]. *)
Lemma like_percent (p s : str) :
  like (percent :: p) s =
  like p s || match s with [] => false | _ :: s' => like (percent :: p) s' end.
Proof. destruct s; reflexivity. Qed.

Lemma like_only_percent (s : str) : like [percent] s = true.
Proof.
  induction s as [|c s IH].
  - reflexivity.
  - rewrite like_percent, IH. apply orb_true_r.
Qed.






Lemma lower_app (a b : str) : lower (a ++ b) = lower a ++ lower b.
Proof. apply map_app. Qed.

Lemma c_string_nul_free (s : str) : nul_free s = true -> c_string s = s.
Proof.
  induction s as [|c s IH]; simpl; [reflexivity|].
  intros H. apply andb_true_iff in H as [Hc Hs].
  apply negb_true_iff in Hc. rewrite Hc, (IH Hs). reflexivity.
Qed.

Lemma lower_char_nul (c : char) :
  char_eqb (lower_char c) nul = char_eqb c nul.
Proof.
  unfold lower_char, char_eqb, nul, in_range.
  destruct (N.leb 65 c) eqn:H1; destruct (N.leb c 90) eqn:H2; simpl;
    try reflexivity.
  apply N.leb_le in H1, H2.
  assert (N.eqb (c + 32) 0 = false) as -> by (apply N.eqb_neq; lia).
  assert (N.eqb c 0 = false) as -> by (apply N.eqb_neq; lia).
  reflexivity.
Qed.

Lemma lower_c_string (s : str) : c_string (lower s) = lower (c_string s).
Proof.
  induction s as [|c s IH]; simpl; [reflexivity|].
  rewrite lower_char_nul. destruct (char_eqb c nul); [reflexivity|].
  simpl. f_equal. exact IH.
Qed.

Lemma lower_nul_free (q : str) : nul_free (lower q) = nul_free q.
Proof.
  induction q as [|c q IH]; [reflexivity|].
  simpl. rewrite lower_char_nul. unfold nul_free, lower in IH.
  f_equal. exact IH.
Qed.

(** The pattern [%q%] is read whole when [q] has no NUL. *)
Lemma c_string_pattern (q : str) :
  nul_free q = true ->
  c_string ([percent] ++ q ++ [percent]) = [percent] ++ q ++ [percent].
Proof.
  intros H. apply c_string_nul_free.
  unfold nul_free. rewrite !forallb_app. fold (nul_free q). rewrite H.
  reflexivity.
Qed.


End LikeFacts.

(* ------------------------------------------------------------------ *)
(** ** Ordering, limiting and filtering of rows *)

Section QueryFacts.

Lemma insert_desc_In (r x : Task.t) (l : list Task.t) :
  In x (insert_desc r l) <-> x = r \/ In x l.
Proof.
  induction l as [|r0 l IH]; simpl.
  - intuition congruence.
  - destruct (Z.leb (Task.created_at r0) (Task.created_at r)); simpl.
    + intuition congruence.
    + rewrite IH. intuition congruence.
Qed.

Lemma order_by_In (x : Task.t) (l : list Task.t) :
  In x (order_by_created_at_desc l) <-> In x l.
Proof.
  induction l as [|r l IH]; simpl; [tauto|].
  rewrite insert_desc_In, IH. intuition congruence.
Qed.

Lemma insert_desc_length (r : Task.t) (l : list Task.t) :
  List.length (insert_desc r l) = S (List.length l).
Proof.
  induction l as [|r0 l IH]; simpl; [reflexivity|].
  destruct (Z.leb _ _); simpl; congruence.
Qed.

Lemma order_by_length (l : list Task.t) :
  List.length (order_by_created_at_desc l) = List.length l.
Proof.
  induction l as [|r l IH]; simpl; [reflexivity|].
  rewrite insert_desc_length. congruence.
Qed.

Lemma insert_desc_sorted (r : Task.t) (l : list Task.t) :
  StronglySorted Spec.row_newer_first l ->
  StronglySorted Spec.row_newer_first (insert_desc r l).
Proof.
  induction 1 as [|r0 l Hs IH Hall]; simpl.
  - constructor; constructor.
  - destruct (Z.leb (Task.created_at r0) (Task.created_at r)) eqn:E.
    + apply Z.leb_le in E.
      constructor; [constructor; assumption|].
      constructor; [exact E|].
      rewrite Forall_forall in Hall |- *. intros y Hy.
      specialize (Hall y Hy). unfold Spec.row_newer_first in *. lia.
    + apply Z.leb_gt in E.
      constructor; [exact IH|].
      rewrite Forall_forall in Hall |- *. intros y Hy.
      apply insert_desc_In in Hy as [-> | Hy].
      * unfold Spec.row_newer_first. lia.
      * apply Hall, Hy.
Qed.

Lemma order_by_sorted (l : list Task.t) :
  StronglySorted Spec.row_newer_first (order_by_created_at_desc l).
Proof.
  induction l as [|r l IH]; simpl.
  - constructor.
  - apply insert_desc_sorted, IH.
Qed.

Lemma firstn_In {A : Type} (n : nat) (l : list A) (x : A) :
  In x (firstn n l) -> In x l.
Proof.
  revert l. induction n as [|n IH]; intros [|a l]; simpl; try tauto.
  intros [-> | H]; [left; reflexivity | right; apply IH, H].
Qed.

Lemma sorted_firstn {A : Type} (R : A -> A -> Prop) (n : nat) (l : list A) :
  StronglySorted R l -> StronglySorted R (firstn n l).
Proof.
  intros H. revert n. induction H as [|a l Hs IH Hall]; intros [|n]; simpl;
    try constructor.
  - apply IH.
  - rewrite Forall_forall in Hall |- *. intros y Hy.
    apply Hall. apply (firstn_In n l y Hy).
Qed.

Lemma sorted_from_orm (l : list Task.t) :
  StronglySorted Spec.row_newer_first l ->
  StronglySorted Spec.newer_first (map TaskOut.from_orm_task l).
Proof.
  induction 1 as [|a l Hs IH Hall]; simpl; constructor.
  - exact IH.
  - rewrite Forall_forall in Hall |- *. intros y Hy.
    apply in_map_iff in Hy as [x [<- Hx]]. apply (Hall x Hx).
Qed.

Lemma filter_filter {A : Type} (f g : A -> bool) (l : list A) :
  filter f (filter g l) = filter (fun x => g x && f x) l.
Proof.
  induction l as [|a l IH]; simpl; [reflexivity|].
  destruct (g a); simpl; [destruct (f a)|]; rewrite IH; reflexivity.
Qed.

(** What [list_tasks] returns, in one expression. *)
Lemma list_tasks_unfold q st pr sc limit db :
  list_tasks q st pr sc limit db =
  Ok 200
     (map TaskOut.from_orm_task
          (firstn (Z.to_nat limit)
                  (order_by_created_at_desc
                     (filter (fun r => where_q q r
                                       && (where_status st r
                                       && (where_priority pr r
                                       && where_completed sc r))) db)))).
Proof.
  unfold list_tasks. rewrite !filter_filter. reflexivity.
Qed.


Lemma pattern_truthy_status (s : str) :
  status_pattern s = true -> truthy s = true.
Proof. destruct s; [discriminate | reflexivity]. Qed.

Lemma pattern_truthy_priority (s : str) :
  priority_pattern s = true -> truthy s = true.
Proof. destruct s; [discriminate | reflexivity]. Qed.

Lemma priority_pattern_spec (s : str) :
  priority_pattern s = true <-> In s Spec.priorities.
Proof.
  unfold priority_pattern, Spec.priorities. simpl In.
  rewrite !orb_true_iff, !eqb_eq. intuition congruence.
Qed.

Lemma status_pattern_spec (s : str) :
  status_pattern s = true <-> In s Spec.statuses.
Proof.
  unfold status_pattern, Spec.statuses. simpl In.
  rewrite !orb_true_iff, !eqb_eq. intuition congruence.
Qed.

(** The validated query parameters are the raw ones, with defaults. *)
Lemma list_validate_inv (r : ListQuery.raw) (p : ListQuery.t) :
  ListQuery.validate r = Some p ->
  ListQuery.q p = ListQuery.r_q r
  /\ ListQuery.status p = ListQuery.r_status r
  /\ ListQuery.priority p = ListQuery.r_priority r
  /\ ListQuery.limit p = Spec.limit_in_force r
  /\ (forall s, ListQuery.r_status r = Some s -> status_pattern s = true)
  /\ (forall s, ListQuery.r_priority r = Some s -> priority_pattern s = true)
  /\ (1 <= ListQuery.limit p <= 1000)%Z.
Proof.
  destruct r as [q st pr sc li].
  unfold ListQuery.validate, Spec.limit_in_force,
    ListQuery.optional_param, ListQuery.defaulted_param,
    ListQuery.limit_bounds, unconstrained; simpl.
  destruct q as [q|];
    (destruct st as [st|]; [destruct (status_pattern st) eqn:Est|];
     try discriminate);
    (destruct pr as [pr|]; [destruct (priority_pattern pr) eqn:Epr|];
     try discriminate);
    destruct sc as [sc|];
    (destruct li as [li|];
     [destruct (Z.leb 1 li) eqn:E1; destruct (Z.leb li 1000) eqn:E2|];
     simpl; try discriminate);
    intros E; injection E as <-; simpl;
    repeat match goal with
           | H : Z.leb _ _ = true |- _ => apply Z.leb_le in H
           end;
    repeat split; try lia;
    intros s Hs; try discriminate; injection Hs as <-; assumption.
Qed.

End QueryFacts.

(* ------------------------------------------------------------------ *)
(** ** Lookup, write and delete on the table *)

Section TableFacts.

Lemma first_by_id_Some (task_id : Z) (db : table) (t : Task.t) :
  first_by_id task_id db = Some t -> In t db /\ Task.id t = task_id.
Proof.
  unfold first_by_id. intros H. apply find_some in H as [Hin Hid].
  split; [exact Hin|]. unfold has_id in Hid. apply Z.eqb_eq, Hid.
Qed.

Lemma first_by_id_None (task_id : Z) (db : table) :
  first_by_id task_id db = None <->
  forall r, In r db -> Task.id r <> task_id.
Proof.
  unfold first_by_id. split.
  - intros H r Hr E.
    pose proof (find_none _ _ H r Hr) as F. unfold has_id in F.
    apply Z.eqb_neq in F. contradiction.
  - intros H. induction db as [|r0 db IH]; simpl; [reflexivity|].
    unfold has_id at 1.
    destruct (Z.eqb (Task.id r0) task_id) eqn:E.
    + apply Z.eqb_eq in E. exfalso. apply (H r0); [left; reflexivity | exact E].
    + apply IH. intros r Hr. apply H. right. exact Hr.
Qed.

Lemma first_by_id_write_row (task_id : Z) (db : table) (t0 t : Task.t) :
  first_by_id task_id db = Some t0 ->
  Task.id t = task_id ->
  first_by_id task_id (write_row t db) = Some t.
Proof.
  unfold first_by_id, write_row. intros H Hid. subst task_id.
  assert (Ht : has_id (Task.id t) t = true) by apply Z.eqb_refl.
  induction db as [|r0 db IH]; simpl in *; [discriminate|].
  destruct (has_id (Task.id t) r0) eqn:E.
  - rewrite Ht. reflexivity.
  - rewrite E. apply IH, H.
Qed.

Lemma delete_row_In (t r : Task.t) (db : table) :
  In r (delete_row t db) <-> In r db /\ Task.id r <> Task.id t.
Proof.
  unfold delete_row. rewrite filter_In. unfold has_id.
  rewrite negb_true_iff, Z.eqb_neq. tauto.
Qed.


End TableFacts.

(* ------------------------------------------------------------------ *)
(** ** The assignments of [update_task] *)

Section UpdateFacts.

(** Case analysis on which keys a validated payload carries. *)
Ltac update_cases p :=
  unfold apply_update;
  destruct (TaskUpdate.title p) as [?ti|],
           (TaskUpdate.description p) as [?de|],
           (TaskUpdate.priority p) as [?pr|],
           (TaskUpdate.status p) as [?st|],
           (TaskUpdate.dueDate p) as [?du|],
           (TaskUpdate.completed p) as [[|]|]; simpl.

(** The validated payload carries the supplied values, and the supplied
    values satisfy the field constraints. *)
Lemma update_validate_inv (b : TaskUpdate.body) (p : TaskUpdate.t) :
  TaskUpdate.validate b = Some p ->
  TaskUpdate.title p = Spec.value_of (TaskUpdate.b_title b)
  /\ TaskUpdate.description p = Spec.value_of (TaskUpdate.b_description b)
  /\ TaskUpdate.priority p = Spec.value_of (TaskUpdate.b_priority b)
  /\ TaskUpdate.status p = Spec.value_of (TaskUpdate.b_status b)
  /\ TaskUpdate.dueDate p = Spec.value_of (TaskUpdate.b_dueDate b)
  /\ TaskUpdate.completed p = Spec.value_of (TaskUpdate.b_completed b)
  /\ (forall s, TaskUpdate.b_title b = Val s ->
                length_within 1 255 s = true).
Proof.
  destruct b as [ti de pr st du co].
  unfold TaskUpdate.validate, optional, unconstrained; simpl.
  destruct ti as [| |ti]; [| |destruct (length_within 1 255 ti) eqn:Eti];
    try discriminate;
    destruct de as [| |de];
    (destruct pr as [| |pr]; [| |destruct (priority_pattern pr)];
     try discriminate);
    (destruct st as [| |st]; [| |destruct (status_pattern st)];
     try discriminate);
    destruct du as [| |du]; destruct co as [| |co];
    intros E; injection E as <-; simpl;
    repeat split; intros s Hs; try discriminate;
    injection Hs as <-; assumption.
Qed.

Lemma flush_columns (now : datetime) (old new : Task.t) :
  Task.id (flush now old new) = Task.id new
  /\ Task.title (flush now old new) = Task.title new
  /\ Task.description (flush now old new) = Task.description new
  /\ Task.priority (flush now old new) = Task.priority new
  /\ Task.status (flush now old new) = Task.status new
  /\ Task.due_date (flush now old new) = Task.due_date new
  /\ Task.completed (flush now old new) = Task.completed new
  /\ Task.created_at (flush now old new) = Task.created_at new.
Proof.
  unfold flush. destruct (Task.same_columns old new); simpl; tauto.
Qed.

Lemma apply_update_id p t : Task.id (apply_update p t) = Task.id t.
Proof.
  update_cases p;
    repeat match goal with |- context [if ?c then _ else _] => destruct c end;
    reflexivity.
Qed.

Lemma apply_update_created_at p t :
  Task.created_at (apply_update p t) = Task.created_at t.
Proof.
  update_cases p;
    repeat match goal with |- context [if ?c then _ else _] => destruct c end;
    reflexivity.
Qed.

Lemma apply_update_title p t :
  Task.title (apply_update p t) =
  match TaskUpdate.title p with
  | Some s => or_ (strip s) (Task.title t)
  | None => Task.title t
  end.
Proof.
  update_cases p;
    repeat match goal with |- context [if ?c then _ else _] => destruct c end;
    reflexivity.
Qed.

Lemma apply_update_description p t :
  Task.description (apply_update p t) =
  match TaskUpdate.description p with
  | Some s => s
  | None => Task.description t
  end.
Proof.
  update_cases p;
    repeat match goal with |- context [if ?c then _ else _] => destruct c end;
    reflexivity.
Qed.

Lemma apply_update_priority p t :
  Task.priority (apply_update p t) =
  match TaskUpdate.priority p with
  | Some s => s
  | None => Task.priority t
  end.
Proof.
  update_cases p;
    repeat match goal with |- context [if ?c then _ else _] => destruct c end;
    reflexivity.
Qed.

Lemma apply_update_due_date p t :
  Task.due_date (apply_update p t) =
  match TaskUpdate.dueDate p with
  | Some d => Some d
  | None => Task.due_date t
  end.
Proof.
  update_cases p;
    repeat match goal with |- context [if ?c then _ else _] => destruct c end;
    reflexivity.
Qed.

Lemma apply_update_completed p t :
  Task.completed (apply_update p t) =
  match TaskUpdate.completed p with
  | Some c => c
  | None => Task.completed t
  end.
Proof.
  update_cases p;
    repeat match goal with |- context [if ?c then _ else _] => destruct c end;
    reflexivity.
Qed.

(** The status after the assignments: the explicit status if any, then
    the coupling with [completed]. *)
Lemma apply_update_status p t :
  Task.status (apply_update p t) =
  let s1 := match TaskUpdate.status p with
            | Some s => s
            | None => Task.status t
            end in
  match TaskUpdate.completed p with
  | Some true => lit "done"
  | Some false => if eqb s1 (lit "done") then lit "open" else s1
  | None => s1
  end.
Proof.
  update_cases p; try reflexivity;
    match goal with
    | |- context [eqb ?x (lit "done")] =>
        destruct (eqb x (lit "done")) eqn:E
    end; simpl; try rewrite E; try reflexivity;
    apply eqb_eq in E; exact E.
Qed.

(** A request that [PATCH] answers with a body went through validation,
    found its row, and wrote the flushed row back. *)
Lemma patch_tasks_ok_inv task_id b now db db' code out :
  patch_tasks task_id b now db = (db', Ok code out) ->
  exists p t0,
    TaskUpdate.validate b = Some p
    /\ first_by_id task_id db = Some t0
    /\ code = 200%nat
    /\ db' = write_row (flush now t0 (apply_update p t0)) db
    /\ out = TaskOut.from_orm_task (flush now t0 (apply_update p t0)).
Proof.
  unfold patch_tasks, update_task.
  destruct (TaskUpdate.validate b) as [p|]; [|discriminate].
  destruct (first_by_id task_id db) as [t0|]; [|discriminate].
  intros E. injection E as <- <- <-. exists p, t0. tauto.
Qed.

(** Conversely, a valid request for an existing row is answered 200. *)
Lemma patch_tasks_ok task_id b p now db t0 :
  TaskUpdate.validate b = Some p ->
  first_by_id task_id db = Some t0 ->
  patch_tasks task_id b now db =
  (write_row (flush now t0 (apply_update p t0)) db,
   Ok 200 (TaskOut.from_orm_task (flush now t0 (apply_update p t0)))).
Proof.
  unfold patch_tasks, update_task. intros -> ->. reflexivity.
Qed.

(** The row written by a successful [PATCH] is the row a later lookup
    finds, and the row the response renders. *)
Lemma patch_tasks_rows task_id b now db db' out :
  patch_tasks task_id b now db = (db', Ok 200 out) ->
  exists p t0 t',
    TaskUpdate.validate b = Some p
    /\ first_by_id task_id db = Some t0
    /\ t' = flush now t0 (apply_update p t0)
    /\ first_by_id task_id db' = Some t'
    /\ out = TaskOut.from_orm_task t'.
Proof.
  intros H. apply patch_tasks_ok_inv in H as (p & t0 & Hv & Hf & _ & -> & ->).
  exists p, t0, (flush now t0 (apply_update p t0)).
  repeat split; try assumption.
  apply (first_by_id_write_row task_id db t0); [exact Hf|].
  destruct (flush_columns now t0 (apply_update p t0)) as (-> & _).
  rewrite apply_update_id. apply (first_by_id_Some _ _ _ Hf).
Qed.

End UpdateFacts.

(* ------------------------------------------------------------------ *)
(** ** Partial update: the coupling of [completed] and [status] *)

Section UpdateCompleted.

(** C2.  A successful partial update that supplies [completed]: with
    [completed = true] the resulting task has status "done", whatever
    explicit status the same request carried; with [completed = false],
    if the status at that point (the explicit one if supplied, else the
    stored one) is "done", the resulting status is "open".  This holds
    for the row left in the table and for the response. *)
Theorem update_completed_forces_status
        (task_id : Z) (b : TaskUpdate.body) (now : datetime)
        (db db' : table) (out : TaskOut.t) (c : bool) :
  patch_tasks task_id b now db = (db', Ok 200 out) ->
  TaskUpdate.b_completed b = Val c ->
  exists t0 t',
    first_by_id task_id db = Some t0
    /\ first_by_id task_id db' = Some t'
    /\ out = TaskOut.from_orm_task t'
    /\ (c = true ->
        TaskOut.status out = lit "done" /\ Task.status t' = lit "done")
    /\ (c = false ->
        Spec.status_at_toggle b t0 = lit "done" ->
        TaskOut.status out = lit "open" /\ Task.status t' = lit "open").
Proof.
  intros H Hc.
  apply patch_tasks_rows in H as (p & t0 & t' & Hv & Hf & Ht & Hf' & ->).
  exists t0, t'. repeat split; try assumption; simpl.
  all: destruct (update_validate_inv b p Hv) as (_ & _ & _ & Hst & _ & Hco & _).
  all: destruct (flush_columns now t0 (apply_update p t0))
    as (_ & _ & _ & _ & Hs & _).
  all: rewrite Ht, Hs, apply_update_status, Hco, Hc; simpl.
  1,2: subst c; reflexivity.
  all: subst c; revert H0; unfold Spec.status_at_toggle; rewrite Hst.
  all: destruct (TaskUpdate.b_status b) as [| |s]; simpl;
    intros ->; reflexivity.
Qed.

Lemma update_completed_forces_status_witness :
  (patch_tasks 1 Sample.reopen_and_complete Sample.t1 Sample.db
   = ([Sample.row1_done; Sample.row2],
      Ok 200 (TaskOut.from_orm_task Sample.row1_done))
   /\ TaskUpdate.b_completed Sample.reopen_and_complete = Val true
   /\ TaskOut.status (TaskOut.from_orm_task Sample.row1_done) = lit "done")
  /\ (patch_tasks 2 Sample.uncomplete Sample.t1 Sample.db
      = ([Sample.row1; Sample.row2_open],
         Ok 200 (TaskOut.from_orm_task Sample.row2_open))
      /\ TaskUpdate.b_completed Sample.uncomplete = Val false
      /\ Spec.status_at_toggle Sample.uncomplete Sample.row2 = lit "done"
      /\ TaskOut.status (TaskOut.from_orm_task Sample.row2_open) = lit "open").
Proof.
  split.
  - split; [reflexivity|]. split; [reflexivity|].
    destruct (update_completed_forces_status
                1 Sample.reopen_and_complete Sample.t1 Sample.db
                [Sample.row1_done; Sample.row2]
                (TaskOut.from_orm_task Sample.row1_done) true
                eq_refl eq_refl)
      as (t0 & t' & _ & _ & _ & Hdone & _).
    exact (proj1 (Hdone eq_refl)).
  - split; [reflexivity|]. split; [reflexivity|]. split; [reflexivity|].
    destruct (update_completed_forces_status
                2 Sample.uncomplete Sample.t1 Sample.db
                [Sample.row1; Sample.row2_open]
                (TaskOut.from_orm_task Sample.row2_open) false
                eq_refl eq_refl)
      as (t0 & t' & H0 & _ & _ & _ & Hopen).
    injection H0 as <-.
    exact (proj1 (Hopen eq_refl eq_refl)).
Defined.

(** C3.  After a successful partial update that supplies [completed], the
    resulting task has [completed = true] exactly when its status is
    "done". *)
Theorem update_completed_iff_done
        (task_id : Z) (b : TaskUpdate.body) (now : datetime)
        (db db' : table) (out : TaskOut.t) (c : bool) :
  patch_tasks task_id b now db = (db', Ok 200 out) ->
  TaskUpdate.b_completed b = Val c ->
  exists t',
    first_by_id task_id db' = Some t'
    /\ out = TaskOut.from_orm_task t'
    /\ Task.completed t' = c
    /\ (Task.completed t' = true <-> Task.status t' = lit "done")
    /\ (TaskOut.completed out = true <-> TaskOut.status out = lit "done").
Proof.
  intros H Hc.
  apply patch_tasks_rows in H as (p & t0 & t' & Hv & Hf & Ht & Hf' & ->).
  exists t'.
  destruct (update_validate_inv b p Hv) as (_ & _ & _ & _ & _ & Hco & _).
  destruct (flush_columns now t0 (apply_update p t0))
    as (_ & _ & _ & _ & Hs & _ & Hcm & _).
  rewrite <- Ht in Hs, Hcm.
  rewrite apply_update_status in Hs. rewrite apply_update_completed in Hcm.
  rewrite Hco, Hc in Hs, Hcm. simpl in Hs, Hcm.
  assert (Hiff : Task.completed t' = true <-> Task.status t' = lit "done").
  { rewrite Hs, Hcm. destruct c.
    - tauto.
    - split; [discriminate|].
      match goal with
      | |- context [eqb ?x (lit "done")] =>
          destruct (eqb x (lit "done")) eqn:E
      end.
      + discriminate.
      + apply eqb_neq in E. intros E'. contradiction. }
  repeat split; try assumption; simpl; apply Hiff.
Qed.

Lemma update_completed_iff_done_witness :
  patch_tasks 2 Sample.uncomplete Sample.t1 Sample.db
  = ([Sample.row1; Sample.row2_open],
     Ok 200 (TaskOut.from_orm_task Sample.row2_open))
  /\ TaskUpdate.b_completed Sample.uncomplete = Val false
  /\ (TaskOut.completed (TaskOut.from_orm_task Sample.row2_open) = true
      <-> TaskOut.status (TaskOut.from_orm_task Sample.row2_open)
          = lit "done").
Proof.
  split; [reflexivity|]. split; [reflexivity|].
  destruct (update_completed_iff_done
              2 Sample.uncomplete Sample.t1 Sample.db
              [Sample.row1; Sample.row2_open]
              (TaskOut.from_orm_task Sample.row2_open) false
              eq_refl eq_refl)
    as (t' & _ & _ & _ & _ & Hiff).
  exact Hiff.
Defined.

End UpdateCompleted.

(* ------------------------------------------------------------------ *)
(** ** Partial update: title, frame, due date *)

Section UpdateFields.

(** An empty title is refused by the [min_length=1] constraint of
    [TaskUpdate]: trimming it yields the empty string, yet the request is
    answered 422 instead of being ignored for that field. *)
Lemma update_empty_title_rejected :
  strip (lit "") = []
  /\ first_by_id 1 Sample.db = Some Sample.row1
  /\ patch_tasks 1 Sample.empty_title Sample.t1 Sample.db
     = (Sample.db, RequestValidationError).
Proof. repeat split. Qed.

(** C4 (amended).  For a partial update of an existing task whose body
    passes validation -- in particular the supplied title has between 1
    and 255 characters before trimming -- the request succeeds and the
    stored title is the supplied title trimmed of surrounding whitespace;
    when trimming yields the empty string the stored title is the one the
    task had, and the request still succeeds. *)
Theorem update_title_trimmed_or_kept
        (task_id : Z) (b : TaskUpdate.body) (p : TaskUpdate.t)
        (now : datetime) (db : table) (t0 : Task.t) (s : str) :
  first_by_id task_id db = Some t0 ->
  TaskUpdate.validate b = Some p ->
  TaskUpdate.b_title b = Val s ->
  exists t',
    patch_tasks task_id b now db
    = (write_row t' db, Ok 200 (TaskOut.from_orm_task t'))
    /\ first_by_id task_id (write_row t' db) = Some t'
    /\ (1 <= len s <= 255)%Z
    /\ (strip s <> [] -> Task.title t' = strip s)
    /\ (strip s = [] -> Task.title t' = Task.title t0).
Proof.
  intros Hf Hv Hs.
  destruct (flush_columns now t0 (apply_update p t0))
    as (Hid & Htitle & _).
  exists (flush now t0 (apply_update p t0)).
  split; [apply patch_tasks_ok; assumption|].
  split.
  { apply (first_by_id_write_row task_id db t0); [exact Hf|].
    rewrite Hid, apply_update_id. apply (first_by_id_Some _ _ _ Hf). }
  destruct (update_validate_inv b p Hv) as (Hti & _ & _ & _ & _ & _ & Hlen).
  specialize (Hlen s Hs). unfold length_within in Hlen.
  apply andb_true_iff in Hlen as [H1 H2].
  apply Z.leb_le in H1, H2. split; [lia|].
  rewrite apply_update_title, Hti, Hs in Htitle. simpl in Htitle.
  rewrite or_cases in Htitle.
  split; intros E; rewrite Htitle.
  - destruct (strip s); [contradiction | reflexivity].
  - rewrite E. reflexivity.
Qed.

Lemma update_title_trimmed_or_kept_witness :
  (first_by_id 1 Sample.db = Some Sample.row1
   /\ TaskUpdate.validate Sample.blank_title = Some Sample.blank_payload
   /\ TaskUpdate.validate Sample.padded_title = Some Sample.padded_payload)
  /\ (exists t',
         patch_tasks 1 Sample.blank_title Sample.t1 Sample.db
         = (write_row t' Sample.db, Ok 200 (TaskOut.from_orm_task t'))
         /\ Task.title t' = lit "Buy milk")
  /\ (exists t',
         patch_tasks 1 Sample.padded_title Sample.t1 Sample.db
         = (write_row t' Sample.db, Ok 200 (TaskOut.from_orm_task t'))
         /\ Task.title t' = lit "Call mum").
Proof.
  split; [repeat split|]. split.
  - destruct (update_title_trimmed_or_kept
                1 Sample.blank_title Sample.blank_payload Sample.t1
                Sample.db Sample.row1 (lit "   ") eq_refl eq_refl eq_refl)
      as (t' & Hp & _ & _ & _ & Hkept).
    exists t'. split; [exact Hp|]. exact (Hkept eq_refl).
  - destruct (update_title_trimmed_or_kept
                1 Sample.padded_title Sample.padded_payload Sample.t1
                Sample.db Sample.row1 (lit " Call mum ")
                eq_refl eq_refl eq_refl)
      as (t' & Hp & _ & _ & Htrim & _).
    exists t'. split; [exact Hp|]. apply Htrim. discriminate.
Defined.

(** A body without keys writes nothing. *)
Example update_nothing :
  patch_tasks 1 Sample.no_update Sample.t1 Sample.db
  = (Sample.db, Ok 200 (TaskOut.from_orm_task Sample.row1)).
Proof. reflexivity. Qed.

(** Supplying [completed] alone rewrites the status, a key the request
    does not carry. *)
Lemma update_completed_rewrites_absent_status :
  Spec.supplied (TaskUpdate.b_status Sample.complete) = false
  /\ Task.status Sample.row1 = lit "in_progress"
  /\ patch_tasks 1 Sample.complete Sample.t1 Sample.db
     = ([Sample.row1_done; Sample.row2],
        Ok 200 (TaskOut.from_orm_task Sample.row1_done))
  /\ Task.status Sample.row1_done = lit "done"
  /\ Task.status Sample.row1_done <> Task.status Sample.row1.
Proof. repeat split. discriminate. Qed.

(** C5 (amended).  After a successful partial update, every column whose
    key the request does not supply keeps its prior value, except that
    the status is also rewritten by the side effect of a supplied
    [completed]: the status keeps its value when neither [status] nor
    [completed] is supplied.  [id] and [createdAt] never change.  In
    particular a request that sets the status to "done" without
    supplying [completed] leaves [completed] as it was. *)
Theorem update_frame
        (task_id : Z) (b : TaskUpdate.body) (now : datetime)
        (db db' : table) (out : TaskOut.t) :
  patch_tasks task_id b now db = (db', Ok 200 out) ->
  exists t0 t',
    first_by_id task_id db = Some t0
    /\ first_by_id task_id db' = Some t'
    /\ out = TaskOut.from_orm_task t'
    /\ Task.id t' = Task.id t0
    /\ Task.created_at t' = Task.created_at t0
    /\ (Spec.supplied (TaskUpdate.b_title b) = false ->
        Task.title t' = Task.title t0)
    /\ (Spec.supplied (TaskUpdate.b_description b) = false ->
        Task.description t' = Task.description t0)
    /\ (Spec.supplied (TaskUpdate.b_priority b) = false ->
        Task.priority t' = Task.priority t0)
    /\ (Spec.supplied (TaskUpdate.b_dueDate b) = false ->
        Task.due_date t' = Task.due_date t0)
    /\ (Spec.supplied (TaskUpdate.b_completed b) = false ->
        Task.completed t' = Task.completed t0)
    /\ (Spec.supplied (TaskUpdate.b_status b) = false ->
        Spec.supplied (TaskUpdate.b_completed b) = false ->
        Task.status t' = Task.status t0)
    /\ (TaskUpdate.b_status b = Val (lit "done") ->
        Spec.supplied (TaskUpdate.b_completed b) = false ->
        Task.status t' = lit "done"
        /\ Task.completed t' = Task.completed t0).
Proof.
  intros H.
  apply patch_tasks_rows in H as (p & t0 & t' & Hv & Hf & Ht & Hf' & ->).
  exists t0, t'.
  destruct (update_validate_inv b p Hv)
    as (Hti & Hde & Hpr & Hst & Hdu & Hco & _).
  destruct (flush_columns now t0 (apply_update p t0))
    as (Fid & Fti & Fde & Fpr & Fst & Fdu & Fco & Fcr).
  rewrite <- Ht in Fid, Fti, Fde, Fpr, Fst, Fdu, Fco, Fcr.
  rewrite apply_update_id in Fid.
  rewrite apply_update_created_at in Fcr.
  rewrite apply_update_title, Hti in Fti.
  rewrite apply_update_description, Hde in Fde.
  rewrite apply_update_priority, Hpr in Fpr.
  rewrite apply_update_status, Hst, Hco in Fst.
  rewrite apply_update_due_date, Hdu in Fdu.
  rewrite apply_update_completed, Hco in Fco.
  repeat match goal with
         | |- _ /\ _ => split
         end; try assumption; try reflexivity.
  - destruct (TaskUpdate.b_title b); simpl; [auto | auto | discriminate].
  - destruct (TaskUpdate.b_description b); simpl; [auto | auto | discriminate].
  - destruct (TaskUpdate.b_priority b); simpl; [auto | auto | discriminate].
  - destruct (TaskUpdate.b_dueDate b); simpl; [auto | auto | discriminate].
  - destruct (TaskUpdate.b_completed b); simpl; [auto | auto | discriminate].
  - destruct (TaskUpdate.b_status b), (TaskUpdate.b_completed b);
      simpl in *; intros; try discriminate; assumption.
  - intros Hd Hc. rewrite Hd in Fst.
    destruct (TaskUpdate.b_completed b); simpl in *;
      try discriminate; split; assumption.
Qed.

Lemma update_frame_witness :
  patch_tasks 1 Sample.set_done Sample.t1 Sample.db
  = ([Sample.row1_status_done; Sample.row2],
     Ok 200 (TaskOut.from_orm_task Sample.row1_status_done))
  /\ exists t',
      first_by_id 1 [Sample.row1_status_done; Sample.row2] = Some t'
      /\ Task.title t' = lit "Buy milk"
      /\ Task.status t' = lit "done"
      /\ Task.completed t' = false.
Proof.
  split; [reflexivity|].
  destruct (update_frame
              1 Sample.set_done Sample.t1 Sample.db
              [Sample.row1_status_done; Sample.row2]
              (TaskOut.from_orm_task Sample.row1_status_done) eq_refl)
    as (t0 & t' & H0 & H' & _ & _ & _ & Hti & _ & _ & _ & _ & _ & Hdone).
  exists t'. split; [exact H'|].
  injection H0 as <-.
  split; [exact (Hti eq_refl)|].
  exact (Hdone eq_refl eq_refl).
Defined.

(** C10.  A partial update cannot clear a due date.  A request whose
    [dueDate] is [null] is answered exactly like the same request
    without the key; after any successful partial update the due date is
    the supplied date when one is supplied and the prior due date
    otherwise, so a task that had a due date still has one. *)
Theorem update_never_clears_due_date
        (task_id : Z) (b : TaskUpdate.body) (now : datetime) (db : table) :
  patch_tasks task_id (Spec.with_dueDate Null b) now db
  = patch_tasks task_id (Spec.with_dueDate Absent b) now db
  /\ forall db' out,
      patch_tasks task_id b now db = (db', Ok 200 out) ->
      exists t0 t',
        first_by_id task_id db = Some t0
        /\ first_by_id task_id db' = Some t'
        /\ out = TaskOut.from_orm_task t'
        /\ Task.due_date t' =
           match TaskUpdate.b_dueDate b with
           | Val d => Some d
           | Absent | Null => Task.due_date t0
           end
        /\ (Task.due_date t0 <> None -> TaskOut.dueDate out <> None).
Proof.
  split; [reflexivity|].
  intros db' out H.
  apply patch_tasks_rows in H as (p & t0 & t' & Hv & Hf & Ht & Hf' & ->).
  exists t0, t'.
  destruct (update_validate_inv b p Hv) as (_ & _ & _ & _ & Hdu & _).
  destruct (flush_columns now t0 (apply_update p t0))
    as (_ & _ & _ & _ & _ & Fdu & _).
  rewrite <- Ht in Fdu. rewrite apply_update_due_date, Hdu in Fdu.
  assert (E : Task.due_date t' =
              match TaskUpdate.b_dueDate b with
              | Val d => Some d
              | Absent | Null => Task.due_date t0
              end).
  { rewrite Fdu. destruct (TaskUpdate.b_dueDate b); reflexivity. }
  repeat split; try assumption.
  simpl. rewrite E. destruct (TaskUpdate.b_dueDate b); auto; discriminate.
Qed.

Lemma update_never_clears_due_date_witness :
  patch_tasks 1 Sample.null_due_date Sample.t1 Sample.db
  = (Sample.db, Ok 200 (TaskOut.from_orm_task Sample.row1))
  /\ Task.due_date Sample.row1 <> None
  /\ TaskOut.dueDate (TaskOut.from_orm_task Sample.row1) <> None.
Proof.
  split; [reflexivity|]. split; [discriminate|].
  destruct (proj2 (update_never_clears_due_date
                     1 Sample.null_due_date Sample.t1 Sample.db)
                  Sample.db (TaskOut.from_orm_task Sample.row1) eq_refl)
    as (t0 & t' & H0 & _ & _ & _ & Hkeep).
  apply Hkeep. injection H0 as <-. discriminate.
Defined.

End UpdateFields.

(* ------------------------------------------------------------------ *)
(** ** Create *)

Section Create.

Lemma create_validate_inv (b : TaskCreate.body) (p : TaskCreate.t) :
  TaskCreate.validate b = Some p ->
  TaskCreate.b_title b = Val (TaskCreate.title p)
  /\ length_within 1 255 (TaskCreate.title p) = true
  /\ (forall pr, TaskCreate.b_priority b = Val pr ->
                 priority_pattern pr = true).
Proof.
  destruct b as [ti de pr du].
  unfold TaskCreate.validate, required, optional, unconstrained; simpl.
  destruct ti as [| |ti]; try discriminate.
  destruct (length_within 1 255 ti) eqn:Eti; try discriminate.
  destruct de as [| |de];
    (destruct pr as [| |pr]; [| |destruct (priority_pattern pr) eqn:Epr];
     try discriminate);
    destruct du as [| |du];
    intros E; injection E as <-; simpl;
    repeat split; try assumption;
    intros pr' Hpr; try discriminate; injection Hpr as <-; assumption.
Qed.

(** A body with a title in bounds and a priority that is absent, null or
    one of the three values passes validation. *)
Lemma create_validate_ok (b : TaskCreate.body) (s : str) :
  TaskCreate.b_title b = Val s ->
  length_within 1 255 s = true ->
  (forall pr, TaskCreate.b_priority b = Val pr ->
              priority_pattern pr = true) ->
  exists p, TaskCreate.validate b = Some p /\ TaskCreate.title p = s.
Proof.
  destruct b as [ti de pr du]; simpl. intros -> Hlen Hpr.
  unfold TaskCreate.validate, required, optional, unconstrained; simpl.
  rewrite Hlen.
  destruct pr as [| |pr]; [| |rewrite (Hpr pr eq_refl)];
    destruct de, du; eexists; split; reflexivity.
Qed.

(** The title is measured before trimming: a 256-character title whose
    trimmed form has 255 characters is refused, with a priority of the
    enum. *)
Lemma create_padded_title_rejected :
  strip Sample.long_padded <> []
  /\ len (strip Sample.long_padded) = 255%Z
  /\ In (lit "high") Spec.priorities
  /\ post_tasks Sample.long_padded_create Sample.t0 []
     = ([], RequestValidationError).
Proof.
  split; [vm_compute; discriminate|].
  split; [vm_compute; reflexivity|].
  split; [right; right; left; reflexivity|].
  vm_compute. reflexivity.
Qed.

(** C1 (amended).  A create request is refused with a validation error,
    the table untouched, when the title is missing or null, when the
    title as supplied (before trimming) is empty or longer than 255
    characters, or when the supplied priority is a string outside
    low / medium / high.  A create request whose title as supplied has
    between 1 and 255 characters and is not empty once trimmed, and whose
    priority is absent, null or in the enum, succeeds with 201 and stores
    the trimmed title. *)
Theorem create_validation
        (b : TaskCreate.body) (now : datetime) (db : table) :
  ((forall s, TaskCreate.b_title b = Val s ->
              (len s < 1 \/ 255 < len s)%Z)
   \/ (exists pr, TaskCreate.b_priority b = Val pr
                  /\ ~ In pr Spec.priorities) ->
   post_tasks b now db = (db, RequestValidationError))
  /\ (forall s,
        TaskCreate.b_title b = Val s ->
        (1 <= len s <= 255)%Z ->
        strip s <> [] ->
        (forall pr, TaskCreate.b_priority b = Val pr ->
                    In pr Spec.priorities) ->
        exists t,
          post_tasks b now db
          = (db ++ [t], Ok 201 (TaskOut.from_orm_task t))
          /\ Task.title t = strip s
          /\ TaskOut.title (TaskOut.from_orm_task t) = strip s).
Proof.
  split.
  - intros H. unfold post_tasks.
    destruct (TaskCreate.validate b) as [p|] eqn:Hv; [|reflexivity].
    exfalso. destruct (create_validate_inv b p Hv) as (Hti & Hlen & Hpr).
    destruct H as [H | (pr & Hb & Hout)].
    + specialize (H _ Hti). unfold length_within in Hlen.
      apply andb_true_iff in Hlen as [H1 H2]. apply Z.leb_le in H1, H2. lia.
    + apply Hout, priority_pattern_spec, Hpr, Hb.
  - intros s Hs Hlen _ Hpr.
    destruct (create_validate_ok b s Hs) as (p & Hv & Hp).
    + unfold length_within. apply andb_true_iff.
      split; apply Z.leb_le; lia.
    + intros pr Hb. apply priority_pattern_spec, Hpr, Hb.
    + unfold post_tasks. rewrite Hv. unfold create_task.
      eexists. split; [reflexivity|]. simpl. rewrite Hp. split; reflexivity.
Qed.

Lemma create_validation_witness :
  post_tasks Sample.urgent Sample.t0 Sample.db
  = (Sample.db, RequestValidationError)
  /\ exists t,
      post_tasks Sample.buy_milk Sample.t0 []
      = ([] ++ [t], Ok 201 (TaskOut.from_orm_task t))
      /\ Task.title t = lit "Buy milk".
Proof.
  split.
  - apply (proj1 (create_validation Sample.urgent Sample.t0 Sample.db)).
    right. exists (lit "urgent"). split; [reflexivity|].
    intros [H | [H | [H | []]]]; discriminate H.
  - destruct (proj2 (create_validation Sample.buy_milk Sample.t0 [])
                    (lit " Buy milk ") eq_refl)
      as (t & Hp & Ht & _).
    + vm_compute. split; discriminate.
    + vm_compute. discriminate.
    + intros pr Hpr. injection Hpr as <-. right; right; left; reflexivity.
    + exists t. split; [exact Hp | exact Ht].
Defined.

(** The scenario of the specification, evaluated. *)
Example create_buy_milk :
  post_tasks Sample.buy_milk Sample.t0 []
  = ([Sample.buy_milk_row],
     Ok 201 (TaskOut.from_orm_task Sample.buy_milk_row)).
Proof. reflexivity. Qed.

(** A title made of whitespace only passes the length check, which runs
    on the title as supplied, and the row is stored with an empty
    title; [update_task] guards the same assignment with
    [or t.title]. *)
Example create_blank_title :
  exists t,
    post_tasks Sample.blank_create Sample.t0 []
    = ([t], Ok 201 (TaskOut.from_orm_task t))
    /\ Task.title t = lit "".
Proof. eexists. split; reflexivity. Qed.

End Create.

(* ------------------------------------------------------------------ *)
(** ** List *)

Section ListTasks.


(** Only the ASCII letters are folded: a search for U+00C9 does not find
    a title made of U+00E9, which a search for U+00E9 finds. *)
Example search_folds_ascii_only :
  where_q (Some [201%N]) (Task.set_title [233%N] Sample.row2) = false
  /\ where_q (Some [233%N]) (Task.set_title [233%N] Sample.row2) = true.
Proof. split; reflexivity. Qed.

(** The search stops at the first NUL of a title. *)
Example search_stops_at_nul :
  where_q (Some (lit "cd"))
          (Task.set_title (lit "ab" ++ [Sql.nul] ++ lit "cd") Sample.row2)
  = false
  /\ where_q (Some (lit "ab"))
             (Task.set_title (lit "ab" ++ [Sql.nul] ++ lit "cd") Sample.row2)
     = true.
Proof. split; reflexivity. Qed.

Lemma insert_desc_perm (r : Task.t) (l : list Task.t) :
  Permutation (insert_desc r l) (r :: l).
Proof.
  induction l as [|r0 l IH]; simpl; [apply Permutation_refl|].
  destruct (Z.leb (Task.created_at r0) (Task.created_at r));
    [apply Permutation_refl|].
  apply Permutation_trans with (r0 :: r :: l);
    [apply perm_skip, IH | apply perm_swap].
Qed.

Lemma order_by_perm (l : list Task.t) :
  Permutation (order_by_created_at_desc l) l.
Proof.
  induction l as [|r l IH]; simpl; [apply perm_nil|].
  apply Permutation_trans with (r :: order_by_created_at_desc l);
    [apply insert_desc_perm | apply perm_skip, IH].
Qed.

(** What [GET /tasks] answers to validated parameters. *)
Lemma get_tasks_selected (r : ListQuery.raw) (p : ListQuery.t) (db : table) :
  ListQuery.validate r = Some p ->
  get_tasks r db
  = Ok 200 (map TaskOut.from_orm_task
                (firstn (Z.to_nat (ListQuery.limit p))
                        (order_by_created_at_desc (Inv.selected p db)))).
Proof.
  intros Hv. unfold get_tasks. rewrite Hv. apply list_tasks_unfold.
Qed.




(** C7.  A list request whose limit lies outside 1..1000 is refused with
    a validation error.  For a request that passes validation, the limit
    in force is the requested one, or 200 when the request has none, and
    a response with a body is the first [limit] entries of the rows kept
    by the filter, arranged by createdAt, most recent first: the response
    is ordered, none of its tasks is older than a selected task it leaves
    out, and it holds min(limit, number of selected rows) tasks.  A
    request whose search text fits the pattern length of the backend is
    answered with such a body. *)
Theorem list_ordered_and_limited (r : ListQuery.raw) (db : table) :
  (forall n, ListQuery.r_limit r = Some n ->
             (n < 1 \/ 1000 < n)%Z ->
             get_tasks r db = RequestValidationError)
  /\ (forall p rows,
         ListQuery.validate r = Some p ->
         get_tasks r db = Ok 200 rows ->
         ListQuery.limit p = match ListQuery.r_limit r with
                             | Some n => n
                             | None => 200%Z
                             end
         /\ (1 <= ListQuery.limit p <= 1000)%Z
         /\ (exists sel,
                Permutation sel (Inv.selected p db)
                /\ StronglySorted Spec.row_newer_first sel
                /\ rows = map TaskOut.from_orm_task
                              (firstn (Z.to_nat (ListQuery.limit p)) sel))
         /\ StronglySorted Spec.newer_first rows
         /\ List.length rows
            = Nat.min (Z.to_nat (ListQuery.limit p))
                      (List.length (Inv.selected p db)))
  /\ (forall p,
         ListQuery.validate r = Some p ->
         (forall s, ListQuery.r_q r = Some s -> Sql.pattern_fits s = true) ->
         exists rows, get_tasks r db = Ok 200 rows).
Proof.
  split; [|split].
  - intros n Hn Hout. unfold get_tasks.
    destruct (ListQuery.validate r) as [p|] eqn:Hv; [|reflexivity].
    exfalso.
    destruct (list_validate_inv r p Hv) as (_ & _ & _ & El & _ & _ & Hb).
    rewrite El in Hb. unfold Spec.limit_in_force in Hb.
    rewrite Hn in Hb. lia.
  - intros p rows Hv.
    rewrite (get_tasks_selected r p db Hv). intros E. injection E as <-.
    destruct (list_validate_inv r p Hv) as (_ & _ & _ & El & _ & _ & Hb).
    split; [exact El|]. split; [exact Hb|]. split; [|split].
    + exists (order_by_created_at_desc (Inv.selected p db)).
      split; [apply order_by_perm|]. split; [apply order_by_sorted|].
      reflexivity.
    + apply sorted_from_orm, sorted_firstn, order_by_sorted.
    + rewrite length_map, length_firstn, order_by_length. reflexivity.
  - intros p Hv _. rewrite (get_tasks_selected r p db Hv).
    eexists. reflexivity.
Qed.

Lemma list_ordered_and_limited_witness :
  get_tasks Sample.limit_zero Sample.db = RequestValidationError
  /\ (ListQuery.validate Sample.limit_one
      = Some (ListQuery.Make None None None true 1)
      /\ get_tasks Sample.limit_one Sample.db
         = Ok 200 [TaskOut.from_orm_task Sample.row2])
  /\ List.length [TaskOut.from_orm_task Sample.row2]
     = Nat.min 1 (List.length Sample.db)
  /\ exists rows, get_tasks Sample.no_query Sample.db = Ok 200 rows.
Proof.
  split.
  - apply (proj1 (list_ordered_and_limited Sample.limit_zero Sample.db)
                 0%Z eq_refl).
    left. reflexivity.
  - split; [split; reflexivity|]. split.
    + destruct (proj1 (proj2 (list_ordered_and_limited
                                Sample.limit_one Sample.db))
                      (ListQuery.Make None None None true 1)
                      [TaskOut.from_orm_task Sample.row2]
                      eq_refl eq_refl)
        as (_ & _ & _ & _ & Hlen).
      exact Hlen.
    + apply (proj2 (proj2 (list_ordered_and_limited
                             Sample.no_query Sample.db))
                   (ListQuery.Make None None None true 200) eq_refl).
      intros s Hs. discriminate Hs.
Defined.

(** Listing without criteria: both sample rows, the later one first. *)
Example list_all :
  get_tasks Sample.no_query Sample.db
  = Ok 200 [TaskOut.from_orm_task Sample.row2;
            TaskOut.from_orm_task Sample.row1].
Proof. reflexivity. Qed.

End ListTasks.

(* ------------------------------------------------------------------ *)
(** ** Delete *)

Section Delete.




End Delete.

(* ------------------------------------------------------------------ *)
(** ** Connectivity probe *)

Section Probe.

(** C9.  [GET /test] called while the datastore is reachable.  The probe
    never lets an exception out: whatever [engine.connect()] does, the
    answer is 200 with the diagnostic object.  But the object never
    reports "connected": when the connection is handed out,
    [conn.execute] is given a plain [str], which is refused, and the
    [except] clause records that refusal as the database entry; when the
    connection fails, the entry is "error: " and the first 120 characters
    of that failure. *)
Theorem test_database_always_reports_error
        (DATABASE_URL dialect_name : str) (probe : probe_outcome) :
  exists info,
    test_database DATABASE_URL dialect_name probe = Ok 200 info
    /\ dict_get (lit "backend") info = Some (lit "running")
    /\ dict_get (lit "database_url") info = Some DATABASE_URL
    /\ dict_get (lit "driver") info = Some dialect_name
    /\ dict_get (lit "database") info
       = Some match probe with
              | Completed =>
                  lit "error: Not an executable object: 'SELECT 1'"
              | Raised e => lit "error: " ++ firstn 120 e
              end
    /\ dict_get (lit "database") info <> Some (lit "connected").
Proof.
  unfold test_database. destruct probe as [|e]; simpl.
  - eexists. repeat split. discriminate.
  - eexists. repeat split. discriminate.
Qed.

End Probe.

(* ------------------------------------------------------------------ *)
(** ** Configuration and banner *)

Section ConfigFacts.

Lemma startswith_decompose (s p : str) :
  Config.startswith s p = true -> s = p ++ skipn (List.length p) s.
Proof.
  revert s. induction p as [|c p IH]; intros [|d s]; simpl;
    try reflexivity; try discriminate.
  intros H. apply andb_true_iff in H as [Hc Hp].
  apply char_eqb_eq in Hc. subst d. f_equal. apply IH, Hp.
Qed.

Lemma startswith_app (p rest : str) :
  Config.startswith (p ++ rest) p = true.
Proof.
  induction p as [|c p IH]; simpl; [reflexivity|].
  rewrite IH. unfold char_eqb. rewrite N.eqb_refl. reflexivity.
Qed.

Lemma skipn_prefix (p rest : str) : skipn (List.length p) (p ++ rest) = rest.
Proof. induction p as [|c p IH]; simpl; [reflexivity | exact IH]. Qed.

(** A replacement at the very start of the string. *)
Lemma replace_first_at_start (old new s : str) :
  Config.startswith s old = true ->
  Config.replace_first old new s = new ++ skipn (List.length old) s.
Proof. intros H. destruct s; simpl; rewrite H; reflexivity. Qed.

Lemma configured_url_nonempty (e1 e2 : option str) :
  Config.configured_url e1 e2 <> [].
Proof.
  unfold Config.configured_url, Config.opt_or_opt, opt_or, or_.
  destruct e1 as [[|c s]|]; simpl; try discriminate;
    destruct e2 as [[|c2 s2]|]; simpl; discriminate.
Qed.

(** The first field of [split] stops at the first separator. *)
Lemma split_head (sep : char) (s : str) :
  exists w ws,
    Config.split sep s = w :: ws
    /\ ~ In sep w
    /\ (s = w \/ exists rest, s = w ++ sep :: rest).
Proof.
  induction s as [|c s (w & ws & E & Hn & Hs)]; simpl.
  - exists [], []. repeat split; auto.
  - destruct (char_eqb c sep) eqn:Ec.
    + apply char_eqb_eq in Ec. subst c.
      exists [], (Config.split sep s). repeat split; auto.
      right. exists s. reflexivity.
    + rewrite E. exists (c :: w), ws. split; [reflexivity|]. split.
      * intros [H | H]; [|contradiction].
        subst c. unfold char_eqb in Ec. rewrite N.eqb_refl in Ec.
        discriminate.
      * destruct Hs as [-> | (rest & ->)]; [left; reflexivity|].
        right. exists rest. reflexivity.
Qed.

Lemma split_head_app (sep : char) (w rest : str) :
  ~ In sep w ->
  List.hd [] (Config.split sep (w ++ sep :: rest)) = w.
Proof.
  induction w as [|c w IH]; intros Hn; simpl.
  - unfold char_eqb. rewrite N.eqb_refl. reflexivity.
  - destruct (char_eqb c sep) eqn:Ec.
    + apply char_eqb_eq in Ec. exfalso. apply Hn. left. exact Ec.
    + assert (Hw : ~ In sep w) by (intros H; apply Hn; right; exact H).
      specialize (IH Hw).
      destruct (Config.split sep (w ++ sep :: rest)) as [|w0 ws];
        simpl in *; subst; reflexivity.
Qed.

(** A configured [mysql://] URL after the rewrite. *)
Lemma database_url_rewritten (e1 e2 : option str) (rest : str) :
  Config.configured_url e1 e2 = lit "mysql://" ++ rest ->
  Config.DATABASE_URL e1 e2 = lit "mysql+pymysql://" ++ rest.
Proof.
  intros E. unfold Config.DATABASE_URL. rewrite E.
  rewrite (startswith_app (lit "mysql://") rest).
  rewrite (replace_first_at_start _ _ _ (startswith_app (lit "mysql://") rest)).
  rewrite (skipn_prefix (lit "mysql://") rest). reflexivity.
Qed.

(** X1.  Whatever the two environment variables hold, the database URL the
    engine is created with is not empty and never starts with [mysql://]:
    a configured URL of that scheme has exactly that prefix replaced by
    [mysql+pymysql://], the rest kept as it is, and any other configured
    URL is used unchanged. *)
Theorem database_url_scheme (e1 e2 : option str) :
  Config.DATABASE_URL e1 e2 <> []
  /\ Config.startswith (Config.DATABASE_URL e1 e2) (lit "mysql://") = false
  /\ (forall rest,
         Config.configured_url e1 e2 = lit "mysql://" ++ rest ->
         Config.DATABASE_URL e1 e2 = lit "mysql+pymysql://" ++ rest)
  /\ (Config.startswith (Config.configured_url e1 e2) (lit "mysql://") = false ->
      Config.DATABASE_URL e1 e2 = Config.configured_url e1 e2).
Proof.
  unfold Config.DATABASE_URL.
  pose proof (configured_url_nonempty e1 e2) as Hne.
  destruct (Config.startswith (Config.configured_url e1 e2) (lit "mysql://"))
    eqn:Hs.
  - rewrite (replace_first_at_start _ _ _ Hs).
    split; [discriminate|]. split; [reflexivity|]. split; [|discriminate].
    intros rest E. rewrite E.
    rewrite (skipn_prefix (lit "mysql://") rest). reflexivity.
  - split; [exact Hne|]. split; [exact Hs|]. split; [|reflexivity].
    intros rest E. rewrite E in Hs.
    rewrite (startswith_app (lit "mysql://") rest) in Hs. discriminate.
Qed.

Lemma database_url_scheme_witness :
  Config.configured_url Scenario.mysql_env None
  = lit "mysql://" ++ lit "user:pw@db:3306/tasks"
  /\ Config.DATABASE_URL Scenario.mysql_env None
     = lit "mysql+pymysql://user:pw@db:3306/tasks"
  /\ Config.startswith (Config.configured_url (Some (lit "")) None)
                       (lit "mysql://") = false
  /\ Config.DATABASE_URL (Some (lit "")) None = lit "sqlite:///./tasks.db".
Proof.
  split; [reflexivity|]. split.
  - exact (proj1 (proj2 (proj2 (database_url_scheme Scenario.mysql_env None)))
                 (lit "user:pw@db:3306/tasks") eq_refl).
  - split; [reflexivity|].
    exact (proj2 (proj2 (proj2 (database_url_scheme (Some (lit "")) None)))
                 eq_refl).
Defined.

(** X2.  The banner of [GET /] is answered 200 with the two keys
    [message] and [db]; [db] is the database URL up to its first colon and
    holds no colon itself.  With a configured [mysql://] URL the banner
    names [mysql+pymysql], the scheme after the rewrite. *)
Theorem read_root_banner (url : str) :
  (exists db,
      Config.read_root url
      = Ok 200 [ (lit "message", lit "Task Manager API running");
                 (lit "db", db) ]
      /\ ~ In Config.colon db
      /\ (url = db \/ exists rest, url = db ++ Config.colon :: rest))
  /\ (forall e1 e2 rest,
         Config.configured_url e1 e2 = lit "mysql://" ++ rest ->
         url = Config.DATABASE_URL e1 e2 ->
         dict_get (lit "db")
                  match Config.read_root url with
                  | Ok _ info => info
                  | _ => []
                  end
         = Some (lit "mysql+pymysql")).
Proof.
  split.
  - destruct (split_head Config.colon url) as (w & ws & E & Hn & Hs).
    exists w. unfold Config.read_root. rewrite E. simpl.
    repeat split; assumption.
  - intros e1 e2 rest Hc ->.
    rewrite (database_url_rewritten e1 e2 rest Hc). unfold Config.read_root.
    change (lit "mysql+pymysql://" ++ rest)
      with (lit "mysql+pymysql" ++ Config.colon :: (lit "//" ++ rest)).
    rewrite split_head_app; [reflexivity|].
    vm_compute. intuition discriminate.
Qed.

Lemma read_root_banner_witness :
  Config.configured_url None Scenario.mysql_env
  = lit "mysql://" ++ lit "user:pw@db:3306/tasks"
  /\ dict_get (lit "db")
              match Config.read_root
                      (Config.DATABASE_URL None Scenario.mysql_env) with
              | Ok _ info => info
              | _ => []
              end
     = Some (lit "mysql+pymysql").
Proof.
  split; [reflexivity|].
  exact (proj2 (read_root_banner (Config.DATABASE_URL None Scenario.mysql_env))
               None Scenario.mysql_env (lit "user:pw@db:3306/tasks")
               eq_refl eq_refl).
Defined.

End ConfigFacts.

(* ------------------------------------------------------------------ *)
(** ** Trimming *)

Section StripFacts.

Lemma lstrip_length (s : str) : (List.length (lstrip s) <= List.length s)%nat.
Proof.
  induction s as [|c s IH]; simpl; [lia|].
  destruct (isspace c); simpl; lia.
Qed.

Lemma rstrip_length (s : str) : (List.length (rstrip s) <= List.length s)%nat.
Proof.
  induction s as [|c s IH]; simpl; [lia|].
  destruct (rstrip s); [destruct (isspace c)|]; simpl in *; lia.
Qed.

Lemma strip_len (s : str) : (len (strip s) <= len s)%Z.
Proof.
  unfold len, strip.
  pose proof (rstrip_length (lstrip s)). pose proof (lstrip_length s). lia.
Qed.

(** What [lstrip] leaves does not start with whitespace. *)
Lemma lstrip_head (s : str) :
  lstrip s = [] \/ exists c r, lstrip s = c :: r /\ isspace c = false.
Proof.
  induction s as [|c s IH]; simpl; [left; reflexivity|].
  destruct (isspace c) eqn:E; [exact IH|].
  right. exists c, s. split; [reflexivity | exact E].
Qed.

Lemma rstrip_idempotent (s : str) : rstrip (rstrip s) = rstrip s.
Proof.
  induction s as [|c s IH]; simpl; [reflexivity|].
  destruct (rstrip s) as [|d r] eqn:E.
  - destruct (isspace c) eqn:Ec; simpl; [reflexivity|].
    rewrite Ec. reflexivity.
  - change (rstrip (c :: d :: r))
      with (match rstrip (d :: r) with
            | [] => if isspace c then [] else [c]
            | x :: r' => c :: x :: r'
            end).
    rewrite IH. reflexivity.
Qed.

(** [rstrip] keeps a leading character that is not whitespace. *)
Lemma rstrip_keeps_head (c : char) (s : str) :
  isspace c = false -> exists r, rstrip (c :: s) = c :: r.
Proof.
  intros Hc. simpl. destruct (rstrip s) as [|d r].
  - rewrite Hc. exists []. reflexivity.
  - exists (d :: r). reflexivity.
Qed.

Lemma strip_idempotent (s : str) : strip (strip s) = strip s.
Proof.
  unfold strip.
  destruct (lstrip_head s) as [-> | (c & r & -> & Hc)]; [reflexivity|].
  destruct (rstrip_keeps_head c r Hc) as (r' & E).
  rewrite E. simpl lstrip. rewrite Hc. rewrite <- E.
  apply rstrip_idempotent.
Qed.

End StripFacts.

(* ------------------------------------------------------------------ *)
(** ** The three writing endpoints, case by case *)

Section EndpointCases.

Lemma fold_max_above (i x : Z) (ids : list Z) :
  x = i \/ In x ids -> (x <= fold_right Z.max i ids)%Z.
Proof.
  induction ids as [|j ids IH]; cbn [In fold_right].
  - intros [-> | []]. lia.
  - intros [-> | [-> | H]]; [| lia |].
    + specialize (IH (or_introl eq_refl)). lia.
    + specialize (IH (or_intror H)). lia.
Qed.

Lemma next_id_above (db : table) (r : Task.t) :
  In r db -> (Task.id r < next_id db)%Z.
Proof.
  unfold next_id. intros H. apply (in_map Task.id) in H.
  destruct (map Task.id db) as [|i ids]; [contradiction|].
  pose proof (fold_max_above i (Task.id r) ids) as Hle.
  destruct H as [H | H]; [specialize (Hle (or_introl (eq_sym H)))
                         | specialize (Hle (or_intror H))]; lia.
Qed.

Lemma first_by_id_app (i : Z) (db : table) (t : Task.t) :
  first_by_id i (db ++ [t]) =
  match first_by_id i db with
  | Some r => Some r
  | None => if has_id i t then Some t else None
  end.
Proof.
  unfold first_by_id. induction db as [|r0 db IH]; simpl; [reflexivity|].
  destruct (has_id i r0); [reflexivity | exact IH].
Qed.

Lemma write_row_ids (t : Task.t) (db : table) :
  map Task.id (write_row t db) = map Task.id db.
Proof.
  unfold write_row. rewrite map_map. apply map_ext_in. intros r _.
  unfold has_id. destruct (Z.eqb (Task.id r) (Task.id t)) eqn:E;
    [apply Z.eqb_eq in E; congruence | reflexivity].
Qed.

Lemma write_row_In (t r : Task.t) (db : table) :
  In r (write_row t db) -> r = t \/ In r db.
Proof.
  unfold write_row. intros H. apply in_map_iff in H as (r0 & E & H0).
  destruct (has_id (Task.id t) r0); [left | right]; congruence.
Qed.

Lemma write_row_nth (t : Task.t) (db : table) (n : nat) (r : Task.t) :
  nth_error db n = Some r ->
  Task.id r <> Task.id t ->
  nth_error (write_row t db) n = Some r.
Proof.
  unfold write_row. intros Hn Hid. rewrite nth_error_map, Hn. simpl.
  unfold has_id. destruct (Z.eqb (Task.id r) (Task.id t)) eqn:E;
    [apply Z.eqb_eq in E; contradiction | reflexivity].
Qed.

Lemma NoDup_map_filter {A B : Type} (f : A -> B) (g : A -> bool) (l : list A) :
  NoDup (map f l) -> NoDup (map f (filter g l)).
Proof.
  induction l as [|a l IH]; simpl; intros H; [constructor|].
  inversion H as [|x xs Hn Hd]; subst.
  destruct (g a); simpl; [|apply IH, Hd].
  constructor; [|apply IH, Hd].
  intros Hin. apply Hn. apply in_map_iff in Hin as (y & Ey & Hy).
  apply in_map_iff. exists y. split; [exact Ey|].
  apply filter_In in Hy. tauto.
Qed.

(** The fields of a validated [TaskCreate] against the body. *)
Lemma create_validate_fields (b : TaskCreate.body) (p : TaskCreate.t) :
  TaskCreate.validate b = Some p ->
  opt_or (TaskCreate.priority p) (lit "medium")
  = match TaskCreate.b_priority b with
    | Val s => s
    | Absent | Null => lit "medium"
    end
  /\ strip (opt_or (TaskCreate.description p) (lit ""))
     = match TaskCreate.b_description b with
       | Val s => strip s
       | Absent | Null => lit ""
       end
  /\ TaskCreate.dueDate p = Spec.value_of (TaskCreate.b_dueDate b)
  /\ In (opt_or (TaskCreate.priority p) (lit "medium")) Spec.priorities.
Proof.
  destruct b as [ti de pr du].
  unfold TaskCreate.validate, required, optional, unconstrained; simpl.
  destruct ti as [| |ti]; try discriminate.
  destruct (length_within 1 255 ti); try discriminate.
  destruct de as [| |de];
    (destruct pr as [| |pr]; [| |destruct (priority_pattern pr) eqn:Epr];
     try discriminate);
    destruct du as [| |du];
    intros E; injection E as <-; simpl;
    repeat split;
    try (rewrite or_empty; reflexivity);
    try (unfold Spec.priorities; simpl; tauto);
    try (rewrite or_cases; destruct pr; [discriminate | reflexivity]);
    try (rewrite or_cases; destruct pr; [discriminate|];
         apply priority_pattern_spec; exact Epr).
Qed.

(** [POST /tasks]: refused, or one row appended. *)
Lemma post_tasks_cases (b : TaskCreate.body) (now : datetime) (db : table) :
  (TaskCreate.validate b = None
   /\ post_tasks b now db = (db, RequestValidationError))
  \/ (exists p t,
         TaskCreate.validate b = Some p
         /\ post_tasks b now db = (db ++ [t], Ok 201 (TaskOut.from_orm_task t))
         /\ t = Task.Make (next_id db) (strip (TaskCreate.title p))
                          (strip (opt_or (TaskCreate.description p) (lit "")))
                          (opt_or (TaskCreate.priority p) (lit "medium"))
                          (lit "open") (TaskCreate.dueDate p) false now now).
Proof.
  unfold post_tasks, create_task.
  destruct (TaskCreate.validate b) as [p|]; [right | left; tauto].
  eexists p, _. repeat split.
Qed.

(** [PATCH /tasks/{task_id}]: refused, not found, or one row rewritten. *)
Lemma patch_tasks_cases (i : Z) (b : TaskUpdate.body) (now : datetime)
      (db : table) :
  (TaskUpdate.validate b = None
   /\ patch_tasks i b now db = (db, RequestValidationError))
  \/ (first_by_id i db = None
      /\ patch_tasks i b now db
         = (db, HTTPException 404 (lit "Task not found")))
  \/ (exists p t0,
         TaskUpdate.validate b = Some p
         /\ first_by_id i db = Some t0
         /\ patch_tasks i b now db
            = (write_row (flush now t0 (apply_update p t0)) db,
               Ok 200 (TaskOut.from_orm_task
                         (flush now t0 (apply_update p t0))))).
Proof.
  unfold patch_tasks, update_task.
  destruct (TaskUpdate.validate b) as [p|]; [|left; tauto].
  destruct (first_by_id i db) as [t0|]; [|right; left; tauto].
  right; right. exists p, t0. tauto.
Qed.

(** [DELETE /tasks/{task_id}]: refused with the table as it was, or the
    row deleted. *)
Lemma delete_task_cases (i : Z) (db : table) :
  (exists resp,
      delete_task i db = (db, resp) /\ Inv.is_error resp = true)
  \/ (exists t,
         first_by_id i db = Some t
         /\ delete_task i db = (delete_row t db, Ok 204 tt)).
Proof.
  unfold delete_task.
  destruct (fits_int64 i); [|left; eexists; split; reflexivity].
  destruct (first_by_id i db) as [t|];
    [right; exists t; tauto | left; eexists; split; reflexivity].
Qed.

Lemma flush_id now old new : Task.id (flush now old new) = Task.id new.
Proof. apply flush_columns. Qed.

(** The status and priority patterns bind the validated [TaskUpdate]. *)
Lemma update_validate_patterns (b : TaskUpdate.body) (p : TaskUpdate.t) :
  TaskUpdate.validate b = Some p ->
  (forall s, TaskUpdate.status p = Some s -> In s Spec.statuses)
  /\ (forall s, TaskUpdate.priority p = Some s -> In s Spec.priorities)
  /\ (forall s, TaskUpdate.title p = Some s -> (len s <= 255)%Z).
Proof.
  destruct b as [ti de pr st du co].
  unfold TaskUpdate.validate, optional, unconstrained; simpl.
  destruct ti as [| |ti]; [| |destruct (length_within 1 255 ti) eqn:Eti];
    try discriminate;
    destruct de as [| |de];
    (destruct pr as [| |pr]; [| |destruct (priority_pattern pr) eqn:Epr];
     try discriminate);
    (destruct st as [| |st]; [| |destruct (status_pattern st) eqn:Est];
     try discriminate);
    destruct du as [| |du]; destruct co as [| |co];
    intros E; injection E as <-; simpl;
    repeat split; intros s Hs; try discriminate; injection Hs as <-;
    try (apply status_pattern_spec; assumption);
    try (apply priority_pattern_spec; assumption);
    unfold length_within in Eti; apply andb_true_iff in Eti as [_ H2];
    apply Z.leb_le in H2; exact H2.
Qed.

End EndpointCases.

(* ------------------------------------------------------------------ *)
(** ** Create: defaults and lookup *)

Section CreateMore.

(** X3.  A create request that passes validation appends exactly one row
    and answers 201 with its rendering.  The row is open and not
    completed, its creation time is the time of the insert, the priority
    is the supplied one or "medium" when the key is absent or null, the
    description is the supplied one trimmed or empty, the due date is the
    supplied one if any.  Its id is carried by no row of the table, a
    lookup by that id finds the new row, and lookups by any other id find
    what they found before. *)
Theorem create_defaults_and_lookup
        (b : TaskCreate.body) (p : TaskCreate.t) (now : datetime)
        (db : table) :
  TaskCreate.validate b = Some p ->
  exists t,
    post_tasks b now db = (db ++ [t], Ok 201 (TaskOut.from_orm_task t))
    /\ Task.status t = lit "open"
    /\ Task.completed t = false
    /\ Task.created_at t = now
    /\ Task.priority t = match TaskCreate.b_priority b with
                         | Val s => s
                         | Absent | Null => lit "medium"
                         end
    /\ Task.description t = match TaskCreate.b_description b with
                            | Val s => strip s
                            | Absent | Null => lit ""
                            end
    /\ Task.due_date t = Spec.value_of (TaskCreate.b_dueDate b)
    /\ (forall r, In r db -> Task.id r <> Task.id t)
    /\ first_by_id (Task.id t) (db ++ [t]) = Some t
    /\ (forall i, i <> Task.id t ->
                  first_by_id i (db ++ [t]) = first_by_id i db).
Proof.
  intros Hv.
  destruct (post_tasks_cases b now db) as [[Hn _] | (p' & t & Hv' & Hp & Ht)];
    [congruence|].
  assert (p' = p) by congruence. subst p'.
  destruct (create_validate_fields b p Hv) as (Hpr & Hde & Hdu & _).
  exists t. split; [exact Hp|].
  assert (Hid : Task.id t = next_id db) by (rewrite Ht; reflexivity).
  assert (Hfresh : first_by_id (Task.id t) db = None).
  { apply first_by_id_None. intros r Hr E.
    pose proof (next_id_above db r Hr). lia. }
  rewrite Ht at 1 2 3 4 5 6. simpl.
  repeat split; try assumption.
  - intros r Hr E. rewrite Hid in E.
    pose proof (next_id_above db r Hr). lia.
  - rewrite first_by_id_app, Hfresh. unfold has_id.
    rewrite Z.eqb_refl. reflexivity.
  - intros i Hi. rewrite first_by_id_app.
    destruct (first_by_id i db); [reflexivity|].
    unfold has_id. destruct (Z.eqb (Task.id t) i) eqn:E;
      [apply Z.eqb_eq in E; congruence | reflexivity].
Qed.

Lemma create_defaults_and_lookup_witness :
  TaskCreate.validate Sample.blank_create
  = Some (TaskCreate.Make (lit "   ") (Some (lit "")) (Some (lit "medium"))
                          None)
  /\ exists t,
      post_tasks Sample.blank_create Sample.t1 Sample.db
      = (Sample.db ++ [t], Ok 201 (TaskOut.from_orm_task t))
      /\ Task.priority t = lit "medium"
      /\ first_by_id (Task.id t) (Sample.db ++ [t]) = Some t.
Proof.
  split; [reflexivity|].
  destruct (create_defaults_and_lookup
              Sample.blank_create
              (TaskCreate.Make (lit "   ") (Some (lit ""))
                               (Some (lit "medium")) None)
              Sample.t1 Sample.db eq_refl)
    as (t & Hp & _ & _ & _ & Hpr & _ & _ & _ & Hf & _).
  exists t. repeat split; assumption.
Defined.

End CreateMore.

(* ------------------------------------------------------------------ *)
(** ** What the writing endpoints keep *)

Section Invariants.

(** X4.  The ids of the table stay pairwise distinct under create, partial
    update and delete, whatever the request and whether it succeeds. *)
Theorem unique_ids_preserved (db : table) :
  Inv.unique_ids db ->
  (forall b now, Inv.unique_ids (fst (post_tasks b now db)))
  /\ (forall i b now, Inv.unique_ids (fst (patch_tasks i b now db)))
  /\ (forall i, Inv.unique_ids (fst (delete_task i db))).
Proof.
  unfold Inv.unique_ids. intros H. split; [|split].
  - intros b now.
    destruct (post_tasks_cases b now db) as [[_ ->] | (p & t & _ & -> & Ht)];
      simpl; [exact H|].
    rewrite map_app. simpl.
    apply NoDup_app; [exact H | repeat constructor; simpl; tauto |].
    intros x Hx [<- | []].
    apply in_map_iff in Hx as (r & Er & Hr).
    pose proof (next_id_above db r Hr) as Hlt.
    rewrite Ht in Er. simpl in Er. lia.
  - intros i b now.
    destruct (patch_tasks_cases i b now db)
      as [[_ ->] | [[_ ->] | (p & t0 & _ & _ & ->)]]; simpl; try exact H.
    rewrite write_row_ids. exact H.
  - intros i.
    destruct (delete_task_cases i db) as [(resp & -> & _) | (t & _ & ->)]; simpl;
      [exact H|].
    unfold delete_row. apply NoDup_map_filter, H.
Qed.

Lemma unique_ids_preserved_witness :
  Inv.unique_ids Sample.db
  /\ Inv.unique_ids (fst (post_tasks Sample.buy_milk Sample.t1 Sample.db))
  /\ Inv.unique_ids (fst (delete_task 1 Sample.db)).
Proof.
  assert (H : Inv.unique_ids Sample.db).
  { unfold Inv.unique_ids. simpl. repeat constructor; simpl; intuition lia. }
  split; [exact H|].
  destruct (unique_ids_preserved Sample.db H) as (Hpost & _ & Hdel).
  split; [apply Hpost | apply Hdel].
Defined.



(** X6.  A partial update rewrites at most the rows carrying the requested
    id: the table keeps its length and its sequence of ids, and every row
    with another id stays at its position, unchanged. *)
Theorem update_touches_one_id
        (i : Z) (b : TaskUpdate.body) (now : datetime) (db : table) :
  List.length (fst (patch_tasks i b now db)) = List.length db
  /\ map Task.id (fst (patch_tasks i b now db)) = map Task.id db
  /\ (forall n r,
         nth_error db n = Some r ->
         Task.id r <> i ->
         nth_error (fst (patch_tasks i b now db)) n = Some r).
Proof.
  destruct (patch_tasks_cases i b now db)
    as [[_ ->] | [[_ ->] | (p & t0 & _ & Hf & ->)]]; simpl;
    try (repeat split; auto; fail).
  assert (Hid : Task.id (flush now t0 (apply_update p t0)) = i).
  { rewrite flush_id, apply_update_id. apply (first_by_id_Some _ _ _ Hf). }
  split; [unfold write_row; apply length_map|].
  split; [apply write_row_ids|].
  intros n r Hn Hr. apply write_row_nth; [exact Hn|]. rewrite Hid. exact Hr.
Qed.

Lemma update_touches_one_id_witness :
  nth_error Sample.db 1 = Some Sample.row2
  /\ Task.id Sample.row2 <> 1%Z
  /\ nth_error (fst (patch_tasks 1 Scenario.retitle Sample.t1 Sample.db)) 1
     = Some Sample.row2.
Proof.
  split; [reflexivity|]. split; [discriminate|].
  apply (proj2 (proj2 (update_touches_one_id
                         1 Scenario.retitle Sample.t1 Sample.db))).
  - reflexivity.
  - discriminate.
Defined.

(** X7.  If every row of the table has its status and its priority in
    their enumerations, so has every row after a create, a partial update
    or a delete: the patterns of the request models and the two literals
    written by the [completed] coupling keep the columns inside the
    enumerations. *)
Theorem enums_preserved (db : table) :
  (forall r, In r db -> Inv.in_enums r) ->
  (forall b now r, In r (fst (post_tasks b now db)) -> Inv.in_enums r)
  /\ (forall i b now r,
         In r (fst (patch_tasks i b now db)) -> Inv.in_enums r)
  /\ (forall i r, In r (fst (delete_task i db)) -> Inv.in_enums r).
Proof.
  intros H. split; [|split].
  - intros b now r.
    destruct (post_tasks_cases b now db) as [[_ ->] | (p & t & Hv & -> & Ht)];
      simpl; [apply H|].
    intros Hr. apply in_app_iff in Hr as [Hr | [<- | []]]; [apply H, Hr|].
    destruct (create_validate_fields b p Hv) as (_ & _ & _ & Hpr).
    rewrite Ht. split; simpl; [unfold Spec.statuses; simpl; tauto | exact Hpr].
  - intros i b now r.
    destruct (patch_tasks_cases i b now db)
      as [[_ ->] | [[_ ->] | (p & t0 & Hv & Hf & ->)]]; simpl; try apply H.
    intros Hr. apply write_row_In in Hr as [-> | Hr]; [|apply H, Hr].
    destruct (first_by_id_Some _ _ _ Hf) as [Hin _].
    destruct (H t0 Hin) as [Hst0 Hpr0].
    destruct (update_validate_patterns b p Hv) as (Hst & Hpr & _).
    destruct (flush_columns now t0 (apply_update p t0))
      as (_ & _ & _ & Fpr & Fst & _).
    split.
    + rewrite Fst, apply_update_status.
      assert (Hs1 : In match TaskUpdate.status p with
                       | Some s => s
                       | None => Task.status t0
                       end Spec.statuses).
      { destruct (TaskUpdate.status p) as [s|]; [apply Hst; reflexivity|].
        exact Hst0. }
      cbv zeta.
      destruct (TaskUpdate.completed p) as [[|]|]; try exact Hs1.
      * unfold Spec.statuses; simpl; tauto.
      * match goal with
        | |- context [if ?c then _ else _] => destruct c
        end; [unfold Spec.statuses; simpl; tauto | exact Hs1].
    + rewrite Fpr, apply_update_priority.
      destruct (TaskUpdate.priority p) as [s|]; [apply Hpr; reflexivity|].
      exact Hpr0.
  - intros i r.
    destruct (delete_task_cases i db) as [(resp & -> & _) | (t & _ & ->)]; simpl;
      [apply H|].
    intros Hr. apply delete_row_In in Hr. apply H. tauto.
Qed.

Lemma enums_preserved_witness :
  (forall r, In r Sample.db -> Inv.in_enums r)
  /\ (forall r,
         In r (fst (patch_tasks 1 Scenario.retitle Sample.t1 Sample.db)) ->
         Inv.in_enums r).
Proof.
  assert (H : forall r, In r Sample.db -> Inv.in_enums r).
  { intros r [<- | [<- | []]]; unfold Inv.in_enums, Spec.statuses,
      Spec.priorities; simpl; tauto. }
  split; [exact H|].
  intros r. apply (proj1 (proj2 (enums_preserved Sample.db H))).
Defined.

(** X8.  If every stored title is free of surrounding whitespace and at
    most 255 characters long, the same holds after a create, a partial
    update or a delete: both handlers trim after the length check, and
    trimming neither lengthens a title nor leaves whitespace to trim. *)
Theorem titles_stay_trimmed (db : table) :
  (forall r, In r db -> Inv.title_stored r) ->
  (forall b now r, In r (fst (post_tasks b now db)) -> Inv.title_stored r)
  /\ (forall i b now r,
         In r (fst (patch_tasks i b now db)) -> Inv.title_stored r)
  /\ (forall i r, In r (fst (delete_task i db)) -> Inv.title_stored r).
Proof.
  intros H. split; [|split].
  - intros b now r.
    destruct (post_tasks_cases b now db) as [[_ ->] | (p & t & Hv & -> & Ht)];
      simpl; [apply H|].
    intros Hr. apply in_app_iff in Hr as [Hr | [<- | []]]; [apply H, Hr|].
    destruct (create_validate_inv b p Hv) as (_ & Hlen & _).
    unfold length_within in Hlen. apply andb_true_iff in Hlen as [_ H2].
    apply Z.leb_le in H2.
    rewrite Ht. split; simpl; [apply strip_idempotent|].
    pose proof (strip_len (TaskCreate.title p)). lia.
  - intros i b now r.
    destruct (patch_tasks_cases i b now db)
      as [[_ ->] | [[_ ->] | (p & t0 & Hv & Hf & ->)]]; simpl; try apply H.
    intros Hr. apply write_row_In in Hr as [-> | Hr]; [|apply H, Hr].
    destruct (first_by_id_Some _ _ _ Hf) as [Hin _].
    destruct (H t0 Hin) as [Htr0 Hlen0].
    destruct (update_validate_patterns b p Hv) as (_ & _ & Hti).
    destruct (flush_columns now t0 (apply_update p t0)) as (_ & Fti & _).
    unfold Inv.title_stored. rewrite Fti, apply_update_title.
    destruct (TaskUpdate.title p) as [s|]; [|split; assumption].
    rewrite or_cases. destruct (strip s) as [|c w] eqn:Es; [split; assumption|].
    rewrite <- Es. split; [apply strip_idempotent|].
    pose proof (strip_len s). specialize (Hti s eq_refl). lia.
  - intros i r.
    destruct (delete_task_cases i db) as [(resp & -> & _) | (t & _ & ->)]; simpl;
      [apply H|].
    intros Hr. apply delete_row_In in Hr. apply H. tauto.
Qed.

Lemma titles_stay_trimmed_witness :
  (forall r, In r Sample.db -> Inv.title_stored r)
  /\ (forall r,
         In r (fst (post_tasks Sample.buy_milk Sample.t1 Sample.db)) ->
         Inv.title_stored r).
Proof.
  assert (H : forall r, In r Sample.db -> Inv.title_stored r).
  { intros r [<- | [<- | []]]; unfold Inv.title_stored; split;
      vm_compute; congruence. }
  split; [exact H|].
  intros r. apply (proj1 (titles_stay_trimmed Sample.db H)).
Defined.

(** X9.  A partial update never empties a title: if the task had a title
    that was not empty, the task has one after any successful partial
    update, whatever title the request carried. *)
Theorem update_keeps_title_nonempty
        (i : Z) (b : TaskUpdate.body) (now : datetime)
        (db db' : table) (out : TaskOut.t) (t0 : Task.t) :
  patch_tasks i b now db = (db', Ok 200 out) ->
  first_by_id i db = Some t0 ->
  Task.title t0 <> [] ->
  TaskOut.title out <> []
  /\ exists t', first_by_id i db' = Some t' /\ Task.title t' <> [].
Proof.
  intros H Hf0 Hne.
  apply patch_tasks_rows in H as (p & t0' & t' & Hv & Hf & Ht & Hf' & ->).
  assert (t0' = t0) by congruence. subst t0'.
  assert (Htitle : Task.title t' <> []).
  { destruct (flush_columns now t0 (apply_update p t0)) as (_ & Fti & _).
    rewrite Ht, Fti, apply_update_title.
    destruct (TaskUpdate.title p) as [s|]; [|exact Hne].
    rewrite or_cases. destruct (strip s); [exact Hne | discriminate]. }
  split; [exact Htitle|]. exists t'. split; assumption.
Qed.

Lemma update_keeps_title_nonempty_witness :
  patch_tasks 1 Sample.blank_title Sample.t1 Sample.db
  = (Sample.db, Ok 200 (TaskOut.from_orm_task Sample.row1))
  /\ Task.title Sample.row1 <> []
  /\ TaskOut.title (TaskOut.from_orm_task Sample.row1) <> [].
Proof.
  split; [reflexivity|]. split; [discriminate|].
  apply (update_keeps_title_nonempty
           1 Sample.blank_title Sample.t1 Sample.db Sample.db
           (TaskOut.from_orm_task Sample.row1) Sample.row1);
    [reflexivity | reflexivity | discriminate].
Defined.

End Invariants.

(* ------------------------------------------------------------------ *)
(** ** Repeating a partial update *)

Section UpdateTwice.

Lemma or_absorb (a b : str) : or_ a (or_ a b) = or_ a b.
Proof. destruct a; reflexivity. Qed.

Lemma row_ext (a b : Task.t) :
  Task.id a = Task.id b ->
  Task.title a = Task.title b ->
  Task.description a = Task.description b ->
  Task.priority a = Task.priority b ->
  Task.status a = Task.status b ->
  Task.due_date a = Task.due_date b ->
  Task.completed a = Task.completed b ->
  Task.created_at a = Task.created_at b ->
  Task.updated_at a = Task.updated_at b ->
  a = b.
Proof. destruct a, b; simpl; intros; subst; reflexivity. Qed.

Lemma apply_update_updated_at p t :
  Task.updated_at (apply_update p t) = Task.updated_at t.
Proof.
  unfold apply_update.
  destruct (TaskUpdate.title p), (TaskUpdate.description p),
    (TaskUpdate.priority p), (TaskUpdate.status p), (TaskUpdate.dueDate p),
    (TaskUpdate.completed p) as [[|]|]; simpl;
    repeat match goal with |- context [if ?c then _ else _] => destruct c end;
    reflexivity.
Qed.

(** The status computed by [update_task] from a status it computed itself
    is that status. *)
Lemma status_coupling_fixed (st : option str) (co : option bool) (s0 : str) :
  let couple s1 :=
    match co with
    | Some true => lit "done"
    | Some false => if eqb s1 (lit "done") then lit "open" else s1
    | None => s1
    end in
  let s1 := match st with Some s => s | None => s0 end in
  couple match st with Some s => s | None => couple s1 end = couple s1.
Proof.
  cbv zeta. destruct st as [s|]; [reflexivity|].
  destruct co as [[|]|]; try reflexivity.
  destruct (eqb s0 (lit "done")) eqn:E; [reflexivity|].
  rewrite E. reflexivity.
Qed.

(** The assignments of [update_task] reach a fixed point at once: a row
    whose columns, [updated_at] apart, are those the assignments produced
    is left as it is by the same assignments. *)
Lemma apply_update_fixed (p : TaskUpdate.t) (t0 t1 : Task.t) :
  Task.id t1 = Task.id (apply_update p t0) ->
  Task.title t1 = Task.title (apply_update p t0) ->
  Task.description t1 = Task.description (apply_update p t0) ->
  Task.priority t1 = Task.priority (apply_update p t0) ->
  Task.status t1 = Task.status (apply_update p t0) ->
  Task.due_date t1 = Task.due_date (apply_update p t0) ->
  Task.completed t1 = Task.completed (apply_update p t0) ->
  apply_update p t1 = t1.
Proof.
  intros Hid Hti Hde Hpr Hst Hdu Hco. apply row_ext.
  - apply apply_update_id.
  - rewrite apply_update_title, Hti, apply_update_title.
    destruct (TaskUpdate.title p); [apply or_absorb | reflexivity].
  - rewrite apply_update_description, Hde, apply_update_description.
    destruct (TaskUpdate.description p); reflexivity.
  - rewrite apply_update_priority, Hpr, apply_update_priority.
    destruct (TaskUpdate.priority p); reflexivity.
  - rewrite apply_update_status, Hst, apply_update_status.
    apply (status_coupling_fixed (TaskUpdate.status p)
                                 (TaskUpdate.completed p) (Task.status t0)).
  - rewrite apply_update_due_date, Hdu, apply_update_due_date.
    destruct (TaskUpdate.dueDate p); reflexivity.
  - rewrite apply_update_completed, Hco, apply_update_completed.
    destruct (TaskUpdate.completed p); reflexivity.
  - apply apply_update_created_at.
  - apply apply_update_updated_at.
Qed.

Lemma same_columns_refl (t : Task.t) : Task.same_columns t t = true.
Proof.
  unfold Task.same_columns.
  assert (Hd : Task.opt_date_eqb (Task.due_date t) (Task.due_date t) = true).
  { destruct (Task.due_date t); simpl; [apply Z.eqb_refl | reflexivity]. }
  rewrite Hd, !Z.eqb_refl, !eqb_refl, Bool.eqb_reflx. reflexivity.
Qed.

(** Applying the same payload to the row it produced changes nothing. *)
Lemma flush_fixed_point (p : TaskUpdate.t) (now now' : datetime)
      (t0 : Task.t) :
  let t1 := flush now t0 (apply_update p t0) in
  flush now' t1 (apply_update p t1) = t1.
Proof.
  intros t1.
  assert (E : apply_update p t1 = t1).
  { destruct (flush_columns now t0 (apply_update p t0))
      as (Fid & Fti & Fde & Fpr & Fst & Fdu & Fco & _).
    apply (apply_update_fixed p t0 t1); assumption. }
  rewrite E. unfold flush at 1. rewrite same_columns_refl. reflexivity.
Qed.

Lemma write_row_twice (t : Task.t) (db : table) :
  write_row t (write_row t db) = write_row t db.
Proof.
  unfold write_row. rewrite map_map. apply map_ext. intros r.
  destruct (has_id (Task.id t) r) eqn:E; [|rewrite E; reflexivity].
  unfold has_id. rewrite Z.eqb_refl. reflexivity.
Qed.

(** X10.  Partial update is idempotent on what the client sees: sending
    the same body again for the same id, at any later time, is answered
    200 with the same representation as the first time. *)
Theorem patch_twice_same_response
        (i : Z) (b : TaskUpdate.body) (now now' : datetime)
        (db db1 : table) (out : TaskOut.t) :
  patch_tasks i b now db = (db1, Ok 200 out) ->
  snd (patch_tasks i b now' db1) = Ok 200 out.
Proof.
  intros H.
  pose proof (patch_tasks_rows _ _ _ _ _ _ H)
    as (p & t0 & t1 & Hv & Hf & Ht & Hf1 & Ho).
  rewrite (patch_tasks_ok i b p now' db1 t1 Hv Hf1). simpl.
  rewrite Ht, (flush_fixed_point p now now' t0), <- Ht, Ho. reflexivity.
Qed.

Lemma patch_twice_same_response_witness :
  patch_tasks 1 Sample.reopen_and_complete Sample.t1 Sample.db
  = ([Sample.row1_done; Sample.row2],
     Ok 200 (TaskOut.from_orm_task Sample.row1_done))
  /\ snd (patch_tasks 1 Sample.reopen_and_complete (Sample.t1 + 60)%Z
                      [Sample.row1_done; Sample.row2])
     = Ok 200 (TaskOut.from_orm_task Sample.row1_done).
Proof.
  split; [reflexivity|].
  apply (patch_twice_same_response
           1 Sample.reopen_and_complete Sample.t1 (Sample.t1 + 60)%Z
           Sample.db [Sample.row1_done; Sample.row2]
           (TaskOut.from_orm_task Sample.row1_done)).
  reflexivity.
Defined.

(** X11.  The repeated partial update writes nothing: after a successful
    partial update, the same body for the same id leaves the table as the
    first request left it, [updated_at] included, since no column of the
    row changes. *)
Theorem patch_twice_same_table
        (i : Z) (b : TaskUpdate.body) (now now' : datetime)
        (db db1 : table) (out : TaskOut.t) :
  patch_tasks i b now db = (db1, Ok 200 out) ->
  fst (patch_tasks i b now' db1) = db1.
Proof.
  intros H.
  pose proof (patch_tasks_rows _ _ _ _ _ _ H)
    as (p & t0 & t1 & Hv & Hf & Ht & Hf1 & Ho).
  rewrite (patch_tasks_ok i b p now' db1 t1 Hv Hf1). simpl.
  rewrite Ht, (flush_fixed_point p now now' t0).
  apply patch_tasks_ok_inv in H as (p' & t0' & Hv' & Hf' & _ & -> & _).
  assert (p' = p) by congruence. assert (t0' = t0) by congruence.
  subst p' t0'. apply write_row_twice.
Qed.

Lemma patch_twice_same_table_witness :
  patch_tasks 2 Sample.uncomplete Sample.t1 Sample.db
  = ([Sample.row1; Sample.row2_open],
     Ok 200 (TaskOut.from_orm_task Sample.row2_open))
  /\ fst (patch_tasks 2 Sample.uncomplete (Sample.t1 + 60)%Z
                      [Sample.row1; Sample.row2_open])
     = [Sample.row1; Sample.row2_open].
Proof.
  split; [reflexivity|].
  apply (patch_twice_same_table
           2 Sample.uncomplete Sample.t1 (Sample.t1 + 60)%Z
           Sample.db [Sample.row1; Sample.row2_open]
           (TaskOut.from_orm_task Sample.row2_open)).
  reflexivity.
Defined.

End UpdateTwice.

(* ------------------------------------------------------------------ *)
(** ** List: what is returned, for any search text *)

Section ListMore.

Lemma list_validate_show_completed (r : ListQuery.raw) (p : ListQuery.t) :
  ListQuery.validate r = Some p ->
  ListQuery.show_completed p
  = match ListQuery.r_show_completed r with
    | Some c => c
    | None => true
    end.
Proof.
  destruct r as [q st pr sc li].
  unfold ListQuery.validate, ListQuery.optional_param,
    ListQuery.defaulted_param, unconstrained; simpl.
  destruct q; (destruct st as [st|]; [destruct (status_pattern st)|];
               try discriminate);
    (destruct pr as [pr|]; [destruct (priority_pattern pr)|];
     try discriminate);
    destruct sc;
    (destruct li as [li|]; [destruct (ListQuery.limit_bounds li)|];
     try discriminate);
    intros E; injection E as <-; reflexivity.
Qed.

(** X12.  Every task of a list response renders a row of the table that
    meets the requested status, the requested priority and, when
    show_completed is false, is not completed -- whatever the search text,
    metacharacters included. *)
Theorem list_returns_only_matching
        (r : ListQuery.raw) (db : table) (rows : list TaskOut.t)
        (o : TaskOut.t) :
  get_tasks r db = Ok 200 rows ->
  In o rows ->
  exists x,
    In x db
    /\ o = TaskOut.from_orm_task x
    /\ (forall s, ListQuery.r_status r = Some s -> TaskOut.status o = s)
    /\ (forall s, ListQuery.r_priority r = Some s -> TaskOut.priority o = s)
    /\ (ListQuery.r_show_completed r = Some false ->
        TaskOut.completed o = false).
Proof.
  unfold get_tasks.
  destruct (ListQuery.validate r) as [p|] eqn:Hv; [|discriminate].
  destruct (list_validate_inv r p Hv) as (_ & Est & Epr & _ & Hst & Hpr & _).
  pose proof (list_validate_show_completed r p Hv) as Esc.
  rewrite list_tasks_unfold. intros E Ho. injection E as <-.
  apply in_map_iff in Ho as (x & <- & Hx).
  apply firstn_In, order_by_In, filter_In in Hx as [Hin Hw].
  apply andb_true_iff in Hw as [_ Hw].
  apply andb_true_iff in Hw as [Wst Hw].
  apply andb_true_iff in Hw as [Wpr Wco].
  exists x. split; [exact Hin|]. split; [reflexivity|].
  simpl. split; [|split].
  - intros s Hs. rewrite Est, Hs in Wst. unfold where_status in Wst.
    rewrite (pattern_truthy_status s (Hst s Hs)) in Wst.
    apply eqb_eq, Wst.
  - intros s Hs. rewrite Epr, Hs in Wpr. unfold where_priority in Wpr.
    rewrite (pattern_truthy_priority s (Hpr s Hs)) in Wpr.
    apply eqb_eq, Wpr.
  - intros Hs. rewrite Esc, Hs in Wco. unfold where_completed in Wco.
    simpl in Wco. destruct (Task.completed x); [discriminate | reflexivity].
Qed.

Lemma list_returns_only_matching_witness :
  get_tasks Scenario.only_done Sample.db
  = Ok 200 [TaskOut.from_orm_task Sample.row2]
  /\ In (TaskOut.from_orm_task Sample.row2)
        [TaskOut.from_orm_task Sample.row2]
  /\ TaskOut.status (TaskOut.from_orm_task Sample.row2) = lit "done".
Proof.
  split; [reflexivity|]. split; [left; reflexivity|].
  destruct (list_returns_only_matching
              Scenario.only_done Sample.db
              [TaskOut.from_orm_task Sample.row2]
              (TaskOut.from_orm_task Sample.row2)
              eq_refl (or_introl eq_refl))
    as (x & _ & _ & Hst & _).
  exact (Hst (lit "done") eq_refl).
Defined.

Lemma like_nonpercent (c : char) (p s : str) :
  char_eqb c Sql.percent = false ->
  Sql.like (c :: p) s =
  match s with
  | [] => false
  | d :: s' =>
      (char_eqb c Sql.underscore || char_eqb c d) && Sql.like p s'
  end.
Proof. intros H. simpl. rewrite H. reflexivity. Qed.

(** A pattern followed by [%] matches every string that starts with the
    pattern read literally. *)
Lemma like_prefix_any (q s : str) :
  Sql.prefixb q s = true -> Sql.like (q ++ [Sql.percent]) s = true.
Proof.
  revert s. induction q as [|c q IH]; intros s H.
  - apply like_only_percent.
  - destruct s as [|d s]; [discriminate|]. simpl in H.
    apply andb_true_iff in H as [Hc Hq]. specialize (IH s Hq).
    simpl app. destruct (char_eqb c Sql.percent) eqn:Ep.
    + apply char_eqb_eq in Ep. subst c.
      rewrite like_percent. apply orb_true_iff. right.
      rewrite like_percent, IH. reflexivity.
    + rewrite (like_nonpercent c _ _ Ep), Hc, IH, orb_true_r. reflexivity.
Qed.

Lemma like_substring_any (q s : str) :
  Sql.substringb q s = true ->
  Sql.like ([Sql.percent] ++ q ++ [Sql.percent]) s = true.
Proof.
  simpl app. induction s as [|d s IH]; simpl Sql.substringb; intros H.
  - rewrite orb_false_r in H. rewrite like_percent, (like_prefix_any _ _ H).
    reflexivity.
  - apply orb_true_iff in H as [H | H].
    + rewrite like_percent, (like_prefix_any _ _ H). reflexivity.
    + rewrite like_percent, (IH H). apply orb_true_r.
Qed.

(** X13.  The search never misses a literal occurrence: for a search
    text without NUL that fits the pattern length of the backend, a row
    whose title or description contains the text before its first NUL,
    the ASCII letters compared without regard to case, passes the search
    filter of [list_tasks], also when the text holds [%] or [_]. *)
Theorem search_finds_literal_occurrences (s : str) (x : Task.t) :
  Sql.nul_free s = true ->
  Sql.pattern_fits s = true ->
  Sql.contains_ci s (Sql.c_string (Task.title x)) = true
  \/ Sql.contains_ci s (Sql.c_string (Task.description x)) = true ->
  where_q (Some s) x = true.
Proof.
  intros Hn _ H. unfold where_q.
  destruct (truthy s); [|reflexivity].
  cbv zeta. unfold Sql.ilike, Sql.sqlite_like. rewrite !lower_app.
  change (Sql.lower [Sql.percent]) with [Sql.percent].
  rewrite c_string_pattern by (rewrite lower_nul_free; exact Hn).
  rewrite !lower_c_string.
  apply orb_true_iff. unfold Sql.contains_ci in H.
  destruct H as [H | H]; [left | right]; apply like_substring_any, H.
Qed.

Lemma search_finds_literal_occurrences_witness :
  (Sql.nul_free (lit "o_l") = true
   /\ Sql.pattern_fits (lit "o_l") = true
   /\ Sql.contains_ci (lit "o_l") (Sql.c_string (lit "two_litres")) = true)
  /\ where_q (Some (lit "o_l"))
             (Task.set_description (lit "two_litres") Sample.row1) = true.
Proof.
  split; [repeat split|].
  apply search_finds_literal_occurrences;
    [reflexivity | reflexivity | right; reflexivity].
Defined.

Lemma filter_all {A : Type} (f : A -> bool) (l : list A) :
  (forall x, f x = true) -> filter f l = l.
Proof.
  intros H. induction l as [|a l IH]; simpl; [reflexivity|].
  rewrite H, IH. reflexivity.
Qed.

(** A request without criteria selects every row. *)
Lemma list_no_criteria (r : ListQuery.raw) (p : ListQuery.t) (db : table) :
  ListQuery.validate r = Some p ->
  Inv.no_criteria r ->
  get_tasks r db
  = Ok 200 (map TaskOut.from_orm_task
                (firstn (Z.to_nat (Spec.limit_in_force r))
                        (order_by_created_at_desc db))).
Proof.
  intros Hv (Hq & Hst & Hpr & Hsc). unfold get_tasks. rewrite Hv.
  destruct (list_validate_inv r p Hv) as (Eq & Est & Epr & El & _).
  pose proof (list_validate_show_completed r p Hv) as Esc.
  rewrite list_tasks_unfold, Eq, Est, Epr, Esc, El, Hq, Hst, Hpr.
  rewrite filter_all; [reflexivity|].
  intros x. simpl.
  destruct (ListQuery.r_show_completed r) as [[|]|]; try reflexivity.
  exfalso. apply Hsc. reflexivity.
Qed.

(** X14.  A valid list request without search text, status, priority or
    completed-exclusion returns min(limit, number of rows) tasks; when the
    table holds no more rows than the limit, the response is a
    rearrangement of the renderings of all rows, none lost and none
    repeated. *)
Theorem list_without_criteria_is_complete
        (r : ListQuery.raw) (p : ListQuery.t) (db : table) :
  ListQuery.validate r = Some p ->
  Inv.no_criteria r ->
  exists rows,
    get_tasks r db = Ok 200 rows
    /\ List.length rows
       = Nat.min (Z.to_nat (Spec.limit_in_force r)) (List.length db)
    /\ ((Z.of_nat (List.length db) <= Spec.limit_in_force r)%Z ->
        Permutation rows (map TaskOut.from_orm_task db)).
Proof.
  intros Hv Hn. eexists. split; [apply (list_no_criteria r p db Hv Hn)|].
  split.
  - rewrite length_map, length_firstn, order_by_length. reflexivity.
  - intros Hle. rewrite firstn_all2 by (rewrite order_by_length; lia).
    apply Permutation_map, order_by_perm.
Qed.

Lemma list_without_criteria_is_complete_witness :
  (ListQuery.validate Sample.no_query
   = Some (ListQuery.Make None None None true 200)
   /\ Inv.no_criteria Sample.no_query)
  /\ exists rows,
      get_tasks Sample.no_query Sample.db = Ok 200 rows
      /\ Permutation rows (map TaskOut.from_orm_task Sample.db).
Proof.
  assert (Hn : Inv.no_criteria Sample.no_query).
  { repeat split. discriminate. }
  split; [split; [reflexivity | exact Hn]|].
  destruct (list_without_criteria_is_complete
              Sample.no_query (ListQuery.Make None None None true 200)
              Sample.db eq_refl Hn)
    as (rows & Hg & _ & Hperm).
  exists rows. split; [exact Hg|]. apply Hperm. vm_compute. discriminate.
Defined.

Lemma order_by_newest_last (db : table) (t : Task.t) :
  (forall x, In x db -> (Task.created_at x < Task.created_at t)%Z) ->
  order_by_created_at_desc (db ++ [t]) = t :: order_by_created_at_desc db.
Proof.
  induction db as [|x db IH]; intros H; simpl; [reflexivity|].
  rewrite IH by (intros y Hy; apply H; right; exact Hy).
  simpl.
  assert (Hx : (Task.created_at x < Task.created_at t)%Z)
    by (apply H; left; reflexivity).
  destruct (Z.leb (Task.created_at t) (Task.created_at x)) eqn:E;
    [apply Z.leb_le in E; lia | reflexivity].
Qed.

(** X15.  A task created later than every task of the table heads the
    listing: after a valid create at a time past all stored creation
    times, a valid list request without criteria returns the created
    task's representation first. *)
Theorem created_task_heads_the_list
        (b : TaskCreate.body) (p : TaskCreate.t) (now : datetime)
        (db : table) (r : ListQuery.raw) (q : ListQuery.t) :
  TaskCreate.validate b = Some p ->
  ListQuery.validate r = Some q ->
  Inv.no_criteria r ->
  (forall x, In x db -> (Task.created_at x < now)%Z) ->
  exists out rest,
    snd (post_tasks b now db) = Ok 201 out
    /\ get_tasks r (fst (post_tasks b now db)) = Ok 200 (out :: rest).
Proof.
  intros Hv Hq Hn Hnew.
  destruct (post_tasks_cases b now db) as [[Hnone _] | (p' & t & _ & Hp & Ht)];
    [congruence|].
  rewrite Hp. simpl.
  assert (Hc : Task.created_at t = now) by (rewrite Ht; reflexivity).
  exists (TaskOut.from_orm_task t).
  rewrite (list_no_criteria r q _ Hq Hn).
  rewrite order_by_newest_last by (intros x Hx; rewrite Hc; apply Hnew, Hx).
  destruct (list_validate_inv r q Hq) as (_ & _ & _ & El & _ & _ & Hb).
  rewrite El in Hb.
  destruct (Z.to_nat (Spec.limit_in_force r)) as [|n] eqn:En; [lia|].
  simpl. eexists. split; reflexivity.
Qed.

Lemma created_task_heads_the_list_witness :
  (forall x, In x Sample.db -> (Task.created_at x < Sample.t1)%Z)
  /\ exists out rest,
      snd (post_tasks Sample.buy_milk Sample.t1 Sample.db) = Ok 201 out
      /\ get_tasks Sample.limit_one
                   (fst (post_tasks Sample.buy_milk Sample.t1 Sample.db))
         = Ok 200 (out :: rest).
Proof.
  assert (H : forall x, In x Sample.db -> (Task.created_at x < Sample.t1)%Z).
  { intros x [<- | [<- | []]]; vm_compute; reflexivity. }
  split; [exact H|].
  apply (created_task_heads_the_list
           Sample.buy_milk
           (TaskCreate.Make (lit " Buy milk ") (Some (lit ""))
                            (Some (lit "high")) None)
           Sample.t1 Sample.db Sample.limit_one
           (ListQuery.Make None None None true 1)).
  - reflexivity.
  - reflexivity.
  - repeat split. discriminate.
  - exact H.
Defined.

End ListMore.

(* ------------------------------------------------------------------ *)
(** ** Probe: size of the report *)

Section ProbeMore.

(** X16.  The diagnostic object of [GET /test] always has the four keys
    backend, database_url, driver and database, and its database entry is
    at most 127 characters long ("error: " and at most 120 characters of
    the exception text), however long the exception text is. *)
Theorem test_database_report_bounded
        (DATABASE_URL dialect_name : str) (probe : probe_outcome) :
  exists info msg,
    test_database DATABASE_URL dialect_name probe = Ok 200 info
    /\ map fst info
       = [lit "backend"; lit "database_url"; lit "driver"; lit "database"]
    /\ dict_get (lit "database") info = Some msg
    /\ (len msg <= 127)%Z.
Proof.
  unfold test_database. destruct probe as [|e].
  - eexists _, _. repeat split. vm_compute. discriminate.
  - eexists _, _. split; [reflexivity|]. split; [reflexivity|].
    split; [reflexivity|].
    unfold len, slice_to. rewrite length_app.
    pose proof (firstn_le_length 120 e).
    change (List.length (lit "error: ")) with 7%nat. lia.
Qed.

End ProbeMore.

(* ------------------------------------------------------------------ *)
(** ** Null and empty bodies *)

Section NullBodies.

(** X17.  On create and on partial update a key carrying [null] has the
    effect of a key left out: the request with its [null] keys removed
    gets the same response and leaves the same table.  On create this
    rests on the [or] fallbacks of the handler, which map a [None]
    description and a [None] priority to the defaults of the model. *)
Theorem null_keys_count_as_absent (now : datetime) (db : table) :
  (forall b,
      post_tasks (Inv.create_without_nulls b) now db = post_tasks b now db)
  /\ (forall i b,
         patch_tasks i (Inv.update_without_nulls b) now db
         = patch_tasks i b now db).
Proof.
  split.
  - intros [ti de pr du].
    unfold post_tasks, TaskCreate.validate, Inv.create_without_nulls,
      required, optional, unconstrained; simpl.
    destruct ti as [| |ti]; simpl; try reflexivity.
    destruct (length_within 1 255 ti); [|reflexivity].
    destruct de as [| |de], pr as [| |pr], du as [| |du]; simpl;
      try reflexivity;
      destruct (priority_pattern pr); reflexivity.
  - intros i [ti de pr st du co].
    unfold patch_tasks, TaskUpdate.validate, Inv.update_without_nulls,
      optional, unconstrained; simpl.
    destruct ti as [| |ti], de as [| |de], pr as [| |pr], st as [| |st],
      du as [| |du], co as [| |co]; reflexivity.
Qed.

Lemma unique_ids_same_row (db : table) (a b : Task.t) :
  Inv.unique_ids db -> In a db -> In b db -> Task.id a = Task.id b -> a = b.
Proof.
  unfold Inv.unique_ids. induction db as [|r db IH]; simpl; [tauto|].
  intros H Ha Hb E. inversion H as [|x xs Hn Hd]; subst.
  destruct Ha as [-> | Ha], Hb as [-> | Hb]; try reflexivity.
  - exfalso. apply Hn. rewrite E. apply in_map, Hb.
  - exfalso. apply Hn. rewrite <- E. apply in_map, Ha.
  - apply IH; assumption.
Qed.

Lemma write_row_same (db : table) (i : Z) (t0 : Task.t) :
  Inv.unique_ids db -> first_by_id i db = Some t0 -> write_row t0 db = db.
Proof.
  intros Hu Hf. destruct (first_by_id_Some _ _ _ Hf) as [Hin _].
  unfold write_row. rewrite <- (map_id db) at 2.
  apply map_ext_in. intros r Hr.
  destruct (has_id (Task.id t0) r) eqn:E; [|reflexivity].
  unfold has_id in E. apply Z.eqb_eq in E.
  symmetry. apply (unique_ids_same_row db r t0 Hu Hr Hin E).
Qed.

Lemma nothing_supplied_payload (b : TaskUpdate.body) :
  Inv.nothing_supplied b ->
  TaskUpdate.validate b = Some (TaskUpdate.Make None None None None None None).
Proof.
  destruct b as [ti de pr st du co].
  unfold Inv.nothing_supplied; simpl.
  intros (H1 & H2 & H3 & H4 & H5 & H6).
  destruct ti, de, pr, st, du, co; try discriminate; reflexivity.
Qed.

(** X18.  A partial update whose body supplies no value (every key absent
    or [null]) on an existing task answers 200 with the stored
    representation and, the ids of the table being distinct, writes
    nothing at all. *)
Theorem empty_update_is_a_read
        (i : Z) (b : TaskUpdate.body) (now : datetime) (db : table)
        (t0 : Task.t) :
  Inv.nothing_supplied b ->
  Inv.unique_ids db ->
  first_by_id i db = Some t0 ->
  patch_tasks i b now db = (db, Ok 200 (TaskOut.from_orm_task t0)).
Proof.
  intros Hb Hu Hf.
  rewrite (patch_tasks_ok i b _ now db t0 (nothing_supplied_payload b Hb) Hf).
  change (apply_update (TaskUpdate.Make None None None None None None) t0)
    with t0.
  unfold flush. rewrite same_columns_refl.
  rewrite (write_row_same db i t0 Hu Hf). reflexivity.
Qed.

Lemma empty_update_is_a_read_witness :
  Inv.nothing_supplied Scenario.all_null
  /\ Inv.unique_ids Sample.db
  /\ patch_tasks 2 Scenario.all_null Sample.t1 Sample.db
     = (Sample.db, Ok 200 (TaskOut.from_orm_task Sample.row2)).
Proof.
  assert (Hb : Inv.nothing_supplied Scenario.all_null) by (repeat split).
  assert (Hu : Inv.unique_ids Sample.db).
  { unfold Inv.unique_ids. simpl. repeat constructor; simpl; intuition lia. }
  split; [exact Hb|]. split; [exact Hu|].
  apply (empty_update_is_a_read 2 Scenario.all_null Sample.t1 Sample.db
                                Sample.row2 Hb Hu eq_refl).
Defined.

End NullBodies.
